(** * Sentinel-1 RTC notebook: catalog search, mosaic labelling, aggregation

    A shallow embedding of the original logic of
    [Sentinel1-RTC-example.ipynb]: the fixed-offset parsing of object keys,
    the chronological sort, the manifest writer, the band relabelling, the
    masked monthly mean and the bounding-box extraction.

    Conventions.
    - A Python [str] is a [list ascii]; [str "..."] turns a literal into one.
    - A Python slice [s[a:b]] is [py_slice (Some a) (Some b) s], with the
      language's treatment of negative and out-of-range bounds written out.
    - Pixel values are rationals ([Q]); the missing value (NaN) is [None].
      Rounding of floating-point sums is not modelled.
    - Collaborators outside the notebook (pandas' timestamp parser, the
      storage listing, the order and the month of a timestamp) are Section
      variables.
    - A step that raises returns [None]: the parser on a string that is no
      date, the mosaic builder on an empty list, resampling on a time axis
      that steps back, a label slice on a coordinate in no order whose
      bounds are no labels. *)

From Stdlib Require Import Ascii String List ZArith QArith Bool Lia.
From Stdlib Require Import DecimalString Lqa FinFun.
From Stdlib Require Import Sorting.Sorted Sorting.Permutation.
Import ListNotations.

Local Open Scope Z_scope.

(** ** Python sequences *)

Module Py.

Abbreviation pystr := (list ascii).

Definition str (s : string) : pystr := list_ascii_of_string s.

(** Index normalisation of a slice bound on a sequence of length [n]:
    a negative bound counts from the end, then the bound is clipped
    to [0, n]. *)
Definition norm_index (n i : Z) : Z :=
  let j := if i <? 0 then i + n else i in
  if j <? 0 then 0 else if n <? j then n else j.

(** [s[lo:hi]] with unit step; an omitted bound is [None]. *)
Definition py_slice {A : Type} (lo hi : option Z) (s : list A) : list A :=
  let n := Z.of_nat (List.length s) in
  let a := match lo with Some i => norm_index n i | None => 0 end in
  let b := match hi with Some i => norm_index n i | None => n end in
  firstn (Z.to_nat (b - a)) (skipn (Z.to_nat a) s).

(** Comparison of strings: lexicographic on code points, a proper prefix
    comes first. *)
Fixpoint str_compare (s t : pystr) : comparison :=
  match s, t with
  | [], [] => Eq
  | [], _ :: _ => Lt
  | _ :: _, [] => Gt
  | a :: s', b :: t' =>
      match N.compare (N_of_ascii a) (N_of_ascii b) with
      | Eq => str_compare s' t'
      | c => c
      end
  end.

Definition str_ltb (s t : pystr) : bool :=
  match str_compare s t with Lt => true | _ => false end.

Definition str_leb (s t : pystr) : bool := negb (str_ltb t s).

Definition str_eqb (s t : pystr) : bool :=
  match str_compare s t with Eq => true | _ => false end.

Definition str_le (s t : pystr) : Prop := str_leb s t = true.

(** [list.sort(key=f)]: the language guarantees a stable sort that compares
    the keys with [<].  Elements are inserted from the right end of the list;
    each one goes in front of the first element whose key is not smaller than
    its own, so it stays ahead of the later elements with an equal key. *)
Section Sort.
Context {A : Type} (key : A -> pystr).

Fixpoint insert_by (x : A) (l : list A) : list A :=
  match l with
  | [] => [x]
  | y :: l' =>
      if str_ltb (key y) (key x) then y :: insert_by x l'
      else x :: l
  end.

Fixpoint sort_by (l : list A) : list A :=
  match l with
  | [] => []
  | x :: l' => insert_by x (sort_by l')
  end.

(** Vocabulary for the order of a list by key. *)
Definition key_le (a b : A) : Prop := str_le (key a) (key b).

(** The elements whose key is [k], in the order of the list. *)
Definition with_key (k : pystr) (l : list A) : list A :=
  filter (fun a => str_eqb (key a) k) l.

(** [a] occurs at some place ahead of an occurrence of [b]. *)
Definition ahead (a b : A) (l : list A) : Prop :=
  exists l1 l2 l3, l = l1 ++ a :: l2 ++ b :: l3.
End Sort.

End Py.

Import Py.

(** Decimal value of a string of digits, as in ["20200103"]. *)
Module Digits.

Definition is_digit (c : ascii) : bool :=
  let n := Z.of_N (N_of_ascii c) in (48 <=? n) && (n <=? 57).

Definition digit_value (c : ascii) : Z := Z.of_N (N_of_ascii c) - 48.

Definition all_digits (s : pystr) : bool := forallb is_digit s.

Definition number_from (acc : Z) (s : pystr) : Z :=
  fold_left (fun a c => 10 * a + digit_value c) s acc.

Definition number (s : pystr) : Z := number_from 0 s.

(** An 8-digit date [YYYYMMDD]. *)
Definition is_date8 (s : pystr) : Prop :=
  List.length s = 8%nat /\ all_digits s = true.

(** For the examples: a parser of timestamps that accepts the 8-digit dates
    and keeps the number they write. *)
Definition parse_date8 (s : pystr) : option Z :=
  if Nat.eqb (List.length s) 8 && all_digits s then Some (number s) else None.

(** Year, month and day of an 8-digit date. *)
Definition date_year (s : pystr) : Z := number (py_slice (Some 0) (Some 4) s).
Definition date_month (s : pystr) : Z := number (py_slice (Some 4) (Some 6) s).
Definition date_day (s : pystr) : Z := number (py_slice (Some 6) (Some 8) s).

End Digits.

(** ** Catalog search (cell "keys.sort ... direction") *)

Module Catalog.

(** [lambda x: x[-32:-24]] *)
Definition sort_key (x : pystr) : pystr := py_slice (Some (-32)) (Some (-24)) x.

(** [keys.sort(key=lambda x: x[-32:-24])] *)
Definition sort_keys (keys : list pystr) : list pystr := sort_by sort_key keys.

(** [files = [key[-36:] for key in keys]] *)
Definition file_of (key : pystr) : pystr := py_slice (Some (-36)) None key.
Definition files (keys : list pystr) : list pystr := map file_of keys.

(** [satellites = [x[:3] for x in files]] *)
Definition satellite_of (x : pystr) : pystr := py_slice None (Some 3) x.
Definition satellites (fs : list pystr) : list pystr := map satellite_of fs.

(** [dates = [x[4:12] for x in files]] *)
Definition date_of (x : pystr) : pystr := py_slice (Some 4) (Some 12) x.
Definition dates (fs : list pystr) : list pystr := map date_of fs.

(** [direction = [x[19:22] for x in files]] *)
Definition direction_of (x : pystr) : pystr := py_slice (Some 19) (Some 22) x.
Definition direction (fs : list pystr) : list pystr := map direction_of fs.

(** The documented layout of the end of a path:
    [[SATELLITE]_[DATE]_[TILE ID]_[ORBIT DIRECTION]/[ASSET]]. *)
Definition underscore : ascii := ascii_of_nat 95.
Definition slash : ascii := ascii_of_nat 47.

Definition scene_file (sat date tile dir asset : pystr) : pystr :=
  sat ++ [underscore] ++ date ++ [underscore] ++ tile ++ [underscore]
      ++ dir ++ [slash] ++ asset.

(** A scene file of the fixed widths: 3, 8, 5 and 3 characters for the
    fields, 13 for the asset (as in [Gamma0_VV.tif]); 36 in all. *)
Definition fixed_width (sat date tile dir asset : pystr) : Prop :=
  List.length sat = 3%nat /\ List.length date = 8%nat /\
  List.length tile = 5%nat /\ List.length dir = 3%nat /\
  List.length asset = 13%nat.

(** The date a key is sorted by, as a number. *)
Definition date_number (key : pystr) : Z := Digits.number (sort_key key).

(** A key whose sort key is an 8-digit date. *)
Definition dated (key : pystr) : Prop := Digits.is_date8 (sort_key key).

(** Keys of the archive, for the examples. *)
Definition key_20200106 : pystr :=
  str "sentinel-s1-rtc-indigo/tiles/RTC/1/IW/12/S/YJ/2020/S1B_20200106_12SYJ_ASC/Gamma0_VV.tif".
Definition key_20200101 : pystr :=
  str "sentinel-s1-rtc-indigo/tiles/RTC/1/IW/12/S/YJ/2020/S1B_20200101_12SYJ_ASC/Gamma0_VV.tif".
Definition key_20200103 : pystr :=
  str "sentinel-s1-rtc-indigo/tiles/RTC/1/IW/12/S/YJ/2020/S1A_20200103_12SYJ_DES/Gamma0_VV.tif".
Definition key_20200102 : pystr :=
  str "sentinel-s1-rtc-indigo/tiles/RTC/1/IW/12/S/YJ/2020/S1B_20200102_12SYJ_ASC/Gamma0_VV.tif".

(** The three keys in the order of the listing. *)
Definition listed_keys : list pystr := [key_20200101; key_20200103; key_20200102].

(** A second acquisition of 1 January 2020, by the other satellite. *)
Definition key_20200101_S1A : pystr :=
  str "sentinel-s1-rtc-indigo/tiles/RTC/1/IW/12/S/YJ/2020/S1A_20200101_12SYJ_DES/Gamma0_VV.tif".

End Catalog.


(** ** Mosaic construction and temporal relabelling *)

Module Raster.

(** A pixel is a rational value or the missing value (NaN). *)
Abbreviation pixel := (option Q).

(** One band: rows along [y], columns along [x]. *)
Abbreviation layer := (list (list pixel)).

(** A three-dimensional labelled array: a label per layer along the first
    dimension ([band] or [time]) and the two spatial coordinates. *)
Record data_array (T : Type) := DataArray {
  da_coord : list T;
  da_y : list Q;
  da_x : list Q;
  da_values : list layer
}.

Arguments DataArray {T}.
Arguments da_coord {T}.
Arguments da_y {T}.
Arguments da_x {T}.
Arguments da_values {T}.

End Raster.

Import Raster.

Module Mosaic.

Definition newline : ascii := ascii_of_nat 10.

Definition is_newline (c : ascii) : bool := Ascii.eqb c newline.

Definition vsis3 : pystr := str "/vsis3/".

(** ["/vsis3/%s\n" % key] *)
Definition manifest_line (key : pystr) : pystr := vsis3 ++ key ++ [newline].

(** [for key in keys: f.write("/vsis3/%s\n" % key)] on a file opened with
    ['w']: the content starts empty and each write appends. *)
Definition write_manifest (keys : list pystr) : pystr :=
  fold_left (fun content key => content ++ manifest_line key) keys [].

(** The lines of a text file, as the mosaic builder reads its input file
    list: a newline ends a line. *)
Fixpoint lines (s : pystr) : list pystr :=
  match s with
  | [] => []
  | c :: s' =>
      if is_newline c then [] :: lines s'
      else match lines s' with
           | [] => [[c]]
           | l :: ls => (c :: l) :: ls
           end
  end.

(** A string without a newline character. *)
Definition no_newline (s : pystr) : Prop :=
  forallb (fun c => negb (is_newline c)) s = true.

(** The mosaic descriptor: one source per band, and a description per band
    (unset until written). *)
Record vrt := Vrt {
  sources : list pystr;
  descriptions : list (option pystr)
}.

(** [gdalbuildvrt -separate -input_file_list s3paths.txt]: each line of the
    list becomes a band of its own, in the order of the list; from a list
    without a line the builder makes no mosaic ([None]). *)
Definition gdalbuildvrt (manifest : pystr) : option vrt :=
  match lines manifest with
  | [] => None
  | (_ :: _) as srcs => Some (Vrt srcs (map (fun _ => None) srcs))
  end.

(** [src.descriptions = files]: one description for each band is required,
    otherwise the assignment raises ([None]). *)
Definition set_descriptions (v : vrt) (value : list pystr) : option vrt :=
  if Nat.eqb (List.length value) (List.length (sources v))
  then Some (Vrt (sources v) (map Some value))
  else None.

(** Cells "creating s3paths.txt", "Create a VRT" and "Customize the VRT":
    without a mosaic there is nothing to open. *)
Definition build_mosaic (keys : list pystr) : option vrt :=
  match gdalbuildvrt (write_manifest keys) with
  | Some v => set_descriptions v (Catalog.files keys)
  | None => None
  end.

(** For the examples: a band that holds, in its one pixel, the date number
    of the path it is read from. *)
Definition band_of_date (path : pystr) : layer :=
  [[Some (inject_Z (Digits.number (py_slice (Some (-32)) (Some (-24)) path)))]].

Section Relabel.
(** [pd.to_datetime], the pixels behind a source path and the grid of the
    mosaic come from outside the notebook. The parser raises on a string
    that is no date ([None]). *)
Context {Stamp : Type}.
Variable to_datetime : pystr -> option Stamp.
Variable read_band : pystr -> layer.
Variables grid_y grid_x : list Q.

(** [datetimes = [pd.to_datetime(x[4:12]) for x in filenames]] with
    [filenames = src.descriptions]; slicing an unset description raises, and
    so does the parser on a substring that is no date. *)
Fixpoint datetimes (filenames : list (option pystr)) : option (list Stamp) :=
  match filenames with
  | [] => Some []
  | None :: _ => None
  | Some x :: rest =>
      match to_datetime (Catalog.date_of x), datetimes rest with
      | Some d, Some ds => Some (d :: ds)
      | _, _ => None
      end
  end.

(** [rioxarray.open_rasterio(vrtName, ...)]: dimension [band] is labelled
    1..N, layer [i] holds the pixels of source [i]. *)
Definition open_rasterio (v : vrt) : data_array Z :=
  DataArray (map (fun k => Z.of_nat k + 1) (seq 0 (List.length (sources v))))
            grid_y grid_x (map read_band (sources v)).

(** [da.assign_coords(time=('band', datetimes)).swap_dims({'band':'time'})]:
    the new coordinate must be as long as the dimension; the layers are not
    touched. *)
Definition assign_time (da : data_array Z) (ts : list Stamp)
  : option (data_array Stamp) :=
  if Nat.eqb (List.length ts) (List.length (da_coord da))
  then Some (DataArray ts (da_y da) (da_x da) (da_values da))
  else None.

(** From the sorted keys to the time-indexed raster. *)
Definition relabel (v : vrt) : option (data_array Stamp) :=
  match datetimes (descriptions v) with
  | Some ts => assign_time (open_rasterio v) ts
  | None => None
  end.

Definition time_indexed (keys : list pystr) : option (data_array Stamp) :=
  match build_mosaic keys with
  | Some v => relabel v
  | None => None
  end.
End Relabel.

End Mosaic.

(** ** Aggregation and region analysis *)

Module Aggregation.

Local Open Scope Q_scope.

(** [px != 0] on one pixel; NaN differs from every number. *)
Definition nonzero (px : pixel) : bool :=
  match px with
  | Some q => negb (Qeq_bool q 0)
  | None => true
  end.

(** [a.where(cond)] on one pixel: the value where [cond] holds, NaN
    elsewhere. *)
Definition where_px (cond : bool) (px : pixel) : pixel :=
  if cond then px else None.

Definition mask_zero (px : pixel) : pixel := where_px (nonzero px) px.

(** [da.where(da != 0)] *)
Definition where_nonzero {T : Type} (da : data_array T) : data_array T :=
  DataArray (da_coord da) (da_y da) (da_x da)
            (map (map (map mask_zero)) (da_values da)).

(** [masked=True] when opening: a pixel equal to the no-data value the file
    declares becomes NaN; without a declared value nothing is masked. *)
Definition mask_nodata (nodata : option Q) (px : pixel) : pixel :=
  match nodata, px with
  | Some nd, Some q => if Qeq_bool q nd then None else px
  | _, _ => px
  end.

Definition open_masked {T : Type} (nodata : option Q) (da : data_array T)
  : data_array T :=
  DataArray (da_coord da) (da_y da) (da_x da)
            (map (map (map (mask_nodata nodata))) (da_values da)).

(** The values of a list of pixels that are not missing. *)
Fixpoint valid (l : list pixel) : list Q :=
  match l with
  | [] => []
  | Some q :: l' => q :: valid l'
  | None :: l' => valid l'
  end.

Definition Qsum (l : list Q) : Q := fold_right Qplus 0 l.

Definition Qmean (l : list Q) : Q :=
  Qsum l / inject_Z (Z.of_nat (List.length l)).

(** The mean of a list of values, missing when the list is empty. *)
Definition mean_of (vs : list Q) : pixel :=
  match vs with
  | [] => None
  | _ :: _ => Some (Qmean vs)
  end.

(** [mean] with [skipna]: the mean of the values present, NaN when there is
    none. *)
Definition mean_skipna (l : list pixel) : pixel := mean_of (valid l).

(** The observations among a list of pixels: the values present that are
    not the no-data value zero. *)
Definition is_obs (q : Q) : bool := negb (Qeq_bool q 0).

Definition observations (l : list pixel) : list Q := filter is_obs (valid l).

(** The values present that differ from a declared no-data value. *)
Definition not_nodata (nodata : option Q) (q : Q) : bool :=
  match nodata with
  | Some nd => negb (Qeq_bool q nd)
  | None => true
  end.

(** Equality of pixels up to the representation of a rational. *)
Definition pixel_eq (p q : pixel) : Prop :=
  match p, q with
  | Some a, Some b => a == b
  | None, None => True
  | _, _ => False
  end.

(** A layer of [ny] rows and [nx] columns that is missing everywhere. *)
Definition all_missing (ny nx : nat) : layer := repeat (repeat None nx) ny.

(** A pixel that holds an observation. *)
Definition observed (px : pixel) : bool :=
  match px with
  | Some q => is_obs q
  | None => false
  end.

(** For the examples, a timestamp is kept as the number [YYYYMMDD]. *)
Definition month_of_number (d : Z) : Z :=
  (12 * (d / 10000) + (d / 100) mod 100)%Z.

(** One pixel seen three times in January 2020, the first time without
    data, and once in March. *)
Definition one_pixel : data_array Z :=
  DataArray [20200101; 20200113; 20200125; 20200302]%Z [0] [0]
            [[[Some 0]]; [[Some 2]]; [[Some 4]]; [[Some 0]]].

Definition pixel_at (L : layer) (j i : nat) : pixel :=
  nth i (nth j L []) None.

(** The values of pixel [(j, i)] through a list of layers. *)
Definition pixel_stack (g : list layer) (j i : nat) : list pixel :=
  map (fun L => pixel_at L j i) g.

(** Mean over the first dimension of a group of layers, pixel by pixel. *)
Definition mean_layers (ny nx : nat) (g : list layer) : layer :=
  map (fun j => map (fun i => mean_skipna (pixel_stack g j i)) (seq 0 nx))
      (seq 0 ny).

Section Resample.
Context {Stamp : Type}.
(** The order of timestamps ([t1 <= t2]). *)
Variable stamp_leb : Stamp -> Stamp -> bool.
(** The calendar month of a timestamp, as a running index
    ([12 * year + month]). *)
Variable month_of : Stamp -> Z.

(** An index that never steps back. *)
Fixpoint monotonic (ts : list Stamp) : bool :=
  match ts with
  | a :: ((b :: _) as ts') => stamp_leb a b && monotonic ts'
  | _ => true
  end.

Definition Zmin_list (d : Z) (l : list Z) : Z := fold_left Z.min l d.
Definition Zmax_list (d : Z) (l : list Z) : Z := fold_left Z.max l d.

(** [resample(time='1m')] makes one bin per month from the earliest to the
    latest timestamp, the months without a timestamp included. *)
Definition bins (ts : list Stamp) : list Z :=
  match map month_of ts with
  | [] => []
  | m :: ms =>
      let lo := Zmin_list m ms in
      let hi := Zmax_list m ms in
      map (fun k => (lo + Z.of_nat k)%Z) (seq 0 (Z.to_nat (hi - lo + 1)))
  end.

(** The layers whose timestamp falls in month [m]. *)
Definition group (da : data_array Stamp) (m : Z) : list layer :=
  map snd (filter (fun p => Z.eqb (month_of (fst p)) m)
                  (combine (da_coord da) (da_values da))).

(** One layer per bin: the mean of the layers of the month. *)
Definition monthly_layers (da : data_array Stamp) : data_array Z :=
  let ms := bins (da_coord da) in
  DataArray ms (da_y da) (da_x da)
    (map (fun m => mean_layers (List.length (da_y da))
                               (List.length (da_x da)) (group da m)) ms).

(** [.resample(time='1m').mean()]: resampling raises on a time index that is
    not monotonic ([None]). *)
Definition resample_mean (da : data_array Stamp) : option (data_array Z) :=
  if monotonic (da_coord da) then Some (monthly_layers da) else None.

(** [mosaic_mean = da.where(da!=0).resample(time='1m').mean()] *)
Definition mosaic_mean (da : data_array Stamp) : option (data_array Z) :=
  resample_mean (where_nonzero da).
End Resample.

End Aggregation.

Module Region.

Import Aggregation.
Local Open Scope Q_scope.

(** [gfp.bounds.values[0]] is [(minx, miny, maxx, maxy)] of the region. *)
Record bounds := Bounds { minx : Q; miny : Q; maxx : Q; maxy : Q }.

Definition Qmin_list (d : Q) (l : list Q) : Q :=
  fold_left (fun a b => if Qle_bool b a then b else a) l d.
Definition Qmax_list (d : Q) (l : list Q) : Q :=
  fold_left (fun a b => if Qle_bool a b then b else a) l d.

(** Bounds of a polygon given by its vertices [(x, y)]. *)
Definition polygon_bounds (v0 : Q * Q) (vs : list (Q * Q)) : bounds :=
  Bounds (Qmin_list (fst v0) (map fst vs)) (Qmin_list (snd v0) (map snd vs))
         (Qmax_list (fst v0) (map fst vs)) (Qmax_list (snd v0) (map snd vs)).

Fixpoint increasing (c : list Q) : bool :=
  match c with
  | a :: ((b :: _) as c') => Qle_bool a b && increasing c'
  | _ => true
  end.

Fixpoint decreasing (c : list Q) : bool :=
  match c with
  | a :: ((b :: _) as c') => Qle_bool b a && decreasing c'
  | _ => true
  end.

Definition between (lo hi v : Q) : bool := Qle_bool lo v && Qle_bool v hi.

(** The places of a label in a coordinate, counted from [s]. *)
Fixpoint positions_from (s : nat) (c : list Q) (v : Q) : list nat :=
  match c with
  | [] => []
  | x :: c' =>
      if Qeq_bool x v then s :: positions_from (S s) c' v
      else positions_from (S s) c' v
  end.

(** Label-based [slice(a, b)] on a coordinate: on an increasing coordinate
    the labels from [a] up to [b], on a decreasing one the labels from [a]
    down to [b], both ends included. On a coordinate in no order both bounds
    must be labels that occur once; the slice then runs by position from
    the place of [a] to the place of [b], both included; otherwise it
    raises. *)
Definition slice_mask (c : list Q) (a b : Q) : option (list bool) :=
  if increasing c then Some (map (between a b) c)
  else if decreasing c then Some (map (between b a) c)
  else match positions_from 0 c a, positions_from 0 c b with
       | [i], [j] =>
           Some (map (fun k => Nat.leb i k && Nat.leb k j)
                     (seq 0 (List.length c)))
       | _, _ => None
       end.

(** Positional selection by a mask. *)
Fixpoint select {A : Type} (mask : list bool) (l : list A) : list A :=
  match mask, l with
  | k :: mask', a :: l' => if k then a :: select mask' l' else select mask' l'
  | _, _ => []
  end.

(** [da.sel(x=slice(x0, x1), y=slice(y0, y1))] *)
Definition sel_xy {T : Type} (da : data_array T) (x0 x1 y0 y1 : Q)
  : option (data_array T) :=
  match slice_mask (da_x da) x0 x1, slice_mask (da_y da) y0 y1 with
  | Some kx, Some ky =>
      Some (DataArray (da_coord da) (select ky (da_y da)) (select kx (da_x da))
              (map (fun L => map (select kx) (select ky L)) (da_values da)))
  | _, _ => None
  end.

(** [xmin, ymax, xmax, ymin = gfp.bounds.values[0]] followed by
    [daT = da.sel(x=slice(xmin, xmax), y=slice(ymin, ymax))]: the name [ymax]
    receives [miny] and the name [ymin] receives [maxy]. *)
Definition daT {T : Type} (da : data_array T) (b : bounds)
  : option (data_array T) :=
  let xmin := minx b in
  let ymax := miny b in
  let xmax := maxx b in
  let ymin := maxy b in
  sel_xy da xmin xmax ymin ymax.

(** The condition [daT != 0] at position [(j, i)] of a layer; a position
    outside the layer carries no condition. *)
Definition cond_at (L : layer) (j i : nat) : bool :=
  match nth_error (nth j L []) i with
  | Some px => nonzero px
  | None => false
  end.

(** [a.where(a != 0, drop=True)]: along each dimension the labels at which
    the condition holds nowhere are dropped, then the remaining pixels where
    it fails become NaN. *)
Definition where_nonzero_drop {T : Type} (da : data_array T) : data_array T :=
  let vals := da_values da in
  let ny := List.length (da_y da) in
  let nx := List.length (da_x da) in
  let keep_t := map (fun L => existsb (existsb nonzero) L) vals in
  let keep_y :=
    map (fun j => existsb (fun L => existsb (cond_at L j) (seq 0 nx)) vals)
        (seq 0 ny) in
  let keep_x :=
    map (fun i => existsb (fun L => existsb (fun j => cond_at L j i) (seq 0 ny))
                          vals)
        (seq 0 nx) in
  DataArray (select keep_t (da_coord da))
            (select keep_y (da_y da))
            (select keep_x (da_x da))
            (map (fun L => map (fun row => map mask_zero (select keep_x row))
                               (select keep_y L))
                 (select keep_t vals)).

(** [.mean(dim=['x','y'])]: one value per label of the first dimension. *)
Definition mean_xy {T : Type} (da : data_array T) : list (T * pixel) :=
  combine (da_coord da) (map (fun L => mean_skipna (concat L)) (da_values da)).

(** [mean_trend = daT.where(daT!=0, drop=True).mean(dim=['x','y'])] *)
Definition mean_trend {T : Type} (sub : data_array T) : list (T * pixel) :=
  mean_xy (where_nonzero_drop sub).

(** Every layer has a row per [y] label and every row a pixel per [x]
    label. *)
Definition well_shaped {T : Type} (da : data_array T) : Prop :=
  Forall (fun L : layer =>
            List.length L = List.length (da_y da)
            /\ Forall (fun row : list pixel =>
                         List.length row = List.length (da_x da)) L)
         (da_values da).

(** A north-up grid: [x] ascends, [y] descends through at least two
    different values. *)
Definition north_up {T : Type} (da : data_array T) : Prop :=
  increasing (da_x da) = true
  /\ increasing (da_y da) = false /\ decreasing (da_y da) = true.

(** For the examples: a grid of two rows and two columns seen three times,
    the second time without data, the third time with data only at
    [(x, y) = (1, 1)]. *)
Definition two_by_two : data_array Z :=
  DataArray [20200101; 20200113; 20200125]%Z [1; 0] [0; 1]
            [ [[Some 1; Some 3]; [Some 0; Some 2]];
              [[Some 0; Some 0]; [Some 0; Some 0]];
              [[Some 0; Some 5]; [Some 0; Some 0]] ].

(** The same pixels on a grid whose [y] ascends. *)
Definition two_by_two_south_up : data_array Z :=
  DataArray [20200101; 20200113; 20200125]%Z [0; 1] [0; 1]
            [ [[Some 0; Some 2]; [Some 1; Some 3]];
              [[Some 0; Some 0]; [Some 0; Some 0]];
              [[Some 0; Some 0]; [Some 0; Some 5]] ].

(** A triangle with corners [(0, 0)], [(1, 0)], [(0, 1)]: the point
    [(1, 1)] is outside of it and inside its bounds. *)
Definition triangle_bounds : bounds := polygon_bounds (0, 0) [(1, 0); (0, 1)].

Section FullResolution.
Context {Stamp : Type}.
Variable stamp_leb : Stamp -> Stamp -> bool.
Variable month_of : Stamp -> Z.

(** [da = rioxarray.open_rasterio(vrtName, masked=True, ...)] relabelled,
    then [da.sel(x=slice(..), y=slice(..)).resample(time='1m').mean()]. *)
Definition subset (nodata : option Q) (da : data_array Stamp)
           (x0 x1 y0 y1 : Q) : option (data_array Z) :=
  match sel_xy (open_masked nodata da) x0 x1 y0 y1 with
  | Some s => resample_mean stamp_leb month_of s
  | None => None
  end.
End FullResolution.

End Region.

(** ** Cells as steps that may raise *)

Module Pipeline.

Inductive exn := IndexError | ValueError | TypeError.

Inductive result (A : Type) :=
| Ok (a : A)
| Raise (e : exn).

Arguments Ok {A}.
Arguments Raise {A}.

Section Glob.
(** The storage listing and the glob pattern are outside the notebook:
    [s3.glob] returns the listed keys that match. *)
Variable listing : list pystr.
Variable matches : pystr -> bool.

Definition glob : list pystr := filter matches listing.
End Glob.

(** [url = s3Paths[0]] with [s3Paths = ['s3://' + key for key in keys]] *)
Definition first_url (keys : list pystr) : result pystr :=
  match map (fun key => str "s3://" ++ key) keys with
  | [] => Raise IndexError
  | u :: _ => Ok u
  end.

(** The cells that follow the search up to the manifest, on the result of the
    search: sort, field extraction, manifest. Slicing and sorting strings and
    writing text do not raise. *)
Record catalog := MkCatalog {
  c_keys : list pystr;
  c_files : list pystr;
  c_satellites : list pystr;
  c_dates : list pystr;
  c_direction : list pystr;
  c_manifest : pystr
}.

Definition after_search (found : list pystr) : result catalog :=
  let keys := Catalog.sort_keys found in
  let files := Catalog.files keys in
  Ok (MkCatalog keys files (Catalog.satellites files) (Catalog.dates files)
                (Catalog.direction files) (Mosaic.write_manifest keys)).

End Pipeline.

(** ** Paths (cells "Path layout", "Get information", "Create a VRT") *)

Module Paths.

(** [f'{zone}'] for an [int]: its decimal writing. *)
Definition format_int (z : Z) : pystr :=
  list_ascii_of_string (NilZero.string_of_int (Z.to_int z)).

(** [s3Path = f's3://sentinel-s1-rtc-indigo/tiles/RTC/1/IW/{zone}/{latLabel}/{square}/{year}/{date}/Gamma0_{polarization}.tif'] *)
Definition s3Path (zone : Z) (latLabel square year date polarization : pystr)
  : pystr :=
  str "s3://sentinel-s1-rtc-indigo/tiles/RTC/1/IW/"
      ++ format_int zone ++ [Catalog.slash] ++ latLabel ++ [Catalog.slash]
      ++ square ++ [Catalog.slash] ++ year ++ [Catalog.slash] ++ date
      ++ str "/Gamma0_" ++ polarization ++ str ".tif".

(** [s3Path[5:]], the pattern handed to [s3.glob]. *)
Definition glob_pattern (zone : Z) (latLabel square year date polarization : pystr)
  : pystr :=
  py_slice (Some 5) None (s3Path zone latLabel square year date polarization).

(** [s3Paths = ['s3://' + key for key in keys]] *)
Definition s3Paths (keys : list pystr) : list pystr :=
  map (fun key => str "s3://" ++ key) keys.

(** [keys[:5]], the preview of the search. *)
Definition preview (keys : list pystr) : list pystr :=
  py_slice None (Some 5) keys.

End Paths.

(** ** The table of metadata (cell "construct some tidy metadata") *)

Module Frame.

(** A column of timestamps is kept as integers: pandas counts nanoseconds
    in 64 bits. A missing difference (NaT) is [None]. *)
Record data_frame := DataFrame {
  f_satellite : list pystr;
  f_date : list pystr;
  f_datetime : list Z;
  f_direction : list pystr;
  f_file : list pystr;
  f_dt : list (option Z)
}.

(** A 64-bit signed integer: the value wraps around. *)
Definition wrap64 (z : Z) : Z := (z + 2 ^ 63) mod 2 ^ 64 - 2 ^ 63.

(** [Series.diff()]: each entry minus the one before it, in 64 bits, the
    first one missing. *)
Fixpoint diff_from (prev : Z) (l : list Z) : list (option Z) :=
  match l with
  | [] => []
  | x :: l' => Some (wrap64 (x - prev)) :: diff_from x l'
  end.

Definition diff (l : list Z) : list (option Z) :=
  match l with
  | [] => []
  | x :: l' => None :: diff_from x l'
  end.

(** A timestamp from the epoch on. *)
Definition in_range (a : Z) : Prop := 0 <= a < 2 ^ 63.

(** A difference that is missing or not negative. *)
Definition not_negative (d : option Z) : Prop :=
  match d with
  | Some v => 0 <= v
  | None => True
  end.

Section Frame.
(** [pd.to_datetime] on a date string, as an integer timestamp; it raises on
    a string that is no date ([None]). *)
Variable to_ns : pystr -> option Z.

(** [pd.to_datetime(dates)] on the whole column. *)
Fixpoint to_datetime_all (dates : list pystr) : option (list Z) :=
  match dates with
  | [] => Some []
  | d :: rest =>
      match to_ns d, to_datetime_all rest with
      | Some t, Some ts => Some (t :: ts)
      | _, _ => None
      end
  end.

(** [pd.DataFrame(dict(satellite=..., date=..., datetime=pd.to_datetime(dates),
    direction=..., file=...))] followed by [df['dt'] = df.datetime.diff()]:
    a date that does not parse raises, and so do columns of different
    lengths. *)
Definition tidy (satellites dates direction files : list pystr)
  : option data_frame :=
  match to_datetime_all dates with
  | Some datetime =>
      let n := List.length satellites in
      if Nat.eqb (List.length dates) n && Nat.eqb (List.length direction) n
         && Nat.eqb (List.length files) n
      then Some (DataFrame satellites dates datetime direction files
                           (diff datetime))
      else None
  | None => None
  end.

(** The table of the (sorted) keys. *)
Definition metadata (keys : list pystr) : option data_frame :=
  let files := Catalog.files keys in
  tidy (Catalog.satellites files) (Catalog.dates files)
       (Catalog.direction files) files.
End Frame.

End Frame.

(** * Properties *)

(** ** Slices *)

Module SliceFacts.

Ltac ltb_cases i :=
  cbv zeta; destruct (Z.ltb_spec i 0);
  repeat match goal with
         | |- context [Z.ltb ?a ?b] => destruct (Z.ltb_spec a b)
         end;
  lia.

Lemma norm_index_neg (n i : Z) :
  i < 0 -> 0 <= i + n -> norm_index n i = i + n.
Proof.
  intros Hi Hn. unfold norm_index. ltb_cases i.
Qed.

Lemma norm_index_neg_short (n i : Z) :
  i < 0 -> i + n <= 0 -> norm_index n i = 0.
Proof.
  intros Hi Hn. unfold norm_index. ltb_cases i.
Qed.

Lemma norm_index_pos (n i : Z) :
  0 <= i <= n -> norm_index n i = i.
Proof.
  intros Hi. unfold norm_index. ltb_cases i.
Qed.

(** [s[-k:]] is the last [k] elements when there are that many. *)
Lemma slice_last {A : Type} (k : nat) (s : list A) :
  (0 < k <= List.length s)%nat ->
  py_slice (Some (- Z.of_nat k)) None s = skipn (List.length s - k) s.
Proof.
  intros Hk. unfold py_slice.
  rewrite norm_index_neg by lia.
  replace (Z.to_nat (- Z.of_nat k + Z.of_nat (List.length s)))
    with (List.length s - k)%nat by lia.
  apply firstn_all2. rewrite length_skipn. lia.
Qed.

(** [s[-k:]] is all of [s] when [s] is shorter than [k]. *)
Lemma slice_last_short {A : Type} (k : nat) (s : list A) :
  (List.length s <= k)%nat -> (0 < k)%nat ->
  py_slice (Some (- Z.of_nat k)) None s = s.
Proof.
  intros Hk Hk0. unfold py_slice.
  rewrite norm_index_neg_short by lia. simpl.
  apply firstn_all2. lia.
Qed.

(** [s[a:b]] with both bounds inside the sequence. *)
Lemma slice_inside {A : Type} (a b : nat) (s : list A) :
  (a <= b <= List.length s)%nat ->
  py_slice (Some (Z.of_nat a)) (Some (Z.of_nat b)) s
  = firstn (b - a) (skipn a s).
Proof.
  intros H. unfold py_slice.
  rewrite !norm_index_pos by lia.
  f_equal; [lia | f_equal; lia].
Qed.

(** [s[-a:-b]] with both bounds inside the sequence. *)
Lemma slice_from_end {A : Type} (a b : nat) (s : list A) :
  (0 < b <= a)%nat -> (a <= List.length s)%nat ->
  py_slice (Some (- Z.of_nat a)) (Some (- Z.of_nat b)) s
  = firstn (a - b) (skipn (List.length s - a) s).
Proof.
  intros Hb Ha. unfold py_slice.
  rewrite !norm_index_neg by lia.
  f_equal; [lia | f_equal; lia].
Qed.

Lemma slice_suffix {A : Type} (k : nat) (pre suf : list A) :
  List.length suf = k -> (0 < k)%nat ->
  py_slice (Some (- Z.of_nat k)) None (pre ++ suf) = suf.
Proof.
  intros Hl Hk. rewrite slice_last by (rewrite length_app; lia).
  rewrite length_app, Hl.
  replace (List.length pre + k - k)%nat with (List.length pre + 0)%nat by lia.
  rewrite skipn_app, Nat.add_comm. simpl.
  rewrite skipn_all2 by lia.
  replace (List.length pre - List.length pre)%nat with 0%nat by lia.
  reflexivity.
Qed.

End SliceFacts.

(** ** Order of strings *)

Module OrderFacts.

Lemma str_compare_antisym (s t : pystr) :
  str_compare t s = CompOpp (str_compare s t).
Proof.
  revert t. induction s as [|a s IH]; intros [|b t]; simpl; try reflexivity.
  rewrite (N.compare_antisym (N_of_ascii a) (N_of_ascii b)).
  destruct (N.compare (N_of_ascii a) (N_of_ascii b)); simpl; auto.
Qed.

Lemma str_compare_refl (s : pystr) : str_compare s s = Eq.
Proof.
  induction s as [|a s IH]; simpl; [reflexivity|].
  now rewrite N.compare_refl.
Qed.

Lemma N_of_ascii_inj (a b : ascii) : N_of_ascii a = N_of_ascii b -> a = b.
Proof.
  intros H. rewrite <- (ascii_N_embedding a), <- (ascii_N_embedding b).
  now rewrite H.
Qed.

Lemma str_compare_eq (s t : pystr) : str_compare s t = Eq -> s = t.
Proof.
  revert t. induction s as [|a s IH]; intros [|b t]; simpl;
    try reflexivity; try discriminate.
  destruct (N.compare_spec (N_of_ascii a) (N_of_ascii b)) as [E|L|G];
    try discriminate.
  intros H. f_equal; [now apply N_of_ascii_inj | now apply IH].
Qed.

Lemma str_eqb_eq (s t : pystr) : str_eqb s t = true <-> s = t.
Proof.
  unfold str_eqb. split.
  - destruct (str_compare s t) eqn:E; try discriminate.
    intros _. now apply str_compare_eq.
  - intros ->. now rewrite str_compare_refl.
Qed.

Lemma str_ltb_leb (s t : pystr) : str_ltb s t = true -> str_leb s t = true.
Proof.
  unfold str_leb, str_ltb. rewrite (str_compare_antisym s t).
  destruct (str_compare s t); simpl; congruence.
Qed.

Lemma str_leb_antisym (s t : pystr) :
  str_leb s t = true -> str_leb t s = true -> s = t.
Proof.
  unfold str_leb, str_ltb. rewrite (str_compare_antisym s t).
  destruct (str_compare s t) eqn:E; simpl; try discriminate.
  intros _ _. now apply str_compare_eq.
Qed.

Lemma str_ltb_irrefl (s : pystr) : str_ltb s s = false.
Proof. unfold str_ltb. now rewrite str_compare_refl. Qed.

Lemma str_leb_refl (s : pystr) : str_leb s s = true.
Proof. unfold str_leb. now rewrite str_ltb_irrefl. Qed.

Lemma str_leb_not_gt (s t : pystr) :
  str_leb s t = true <-> str_compare s t <> Gt.
Proof.
  unfold str_leb, str_ltb. rewrite (str_compare_antisym s t).
  destruct (str_compare s t); simpl; split; congruence.
Qed.

Lemma str_compare_trans_le (s t u : pystr) :
  str_compare s t <> Gt -> str_compare t u <> Gt -> str_compare s u <> Gt.
Proof.
  revert t u. induction s as [|a s IH]; intros [|b t] [|c u]; simpl;
    try congruence.
  destruct (N.compare_spec (N_of_ascii a) (N_of_ascii b)) as [E1|L1|G1];
    destruct (N.compare_spec (N_of_ascii b) (N_of_ascii c)) as [E2|L2|G2];
    destruct (N.compare_spec (N_of_ascii a) (N_of_ascii c)) as [E3|L3|G3];
    try congruence; try lia.
  apply IH.
Qed.

Lemma str_leb_trans (s t u : pystr) :
  str_leb s t = true -> str_leb t u = true -> str_leb s u = true.
Proof. rewrite !str_leb_not_gt. apply str_compare_trans_le. Qed.

End OrderFacts.

(** ** Digit strings *)

Module DigitFacts.

Import Digits.

Lemma number_from_app (acc : Z) (s : pystr) :
  number_from acc s = acc * 10 ^ Z.of_nat (List.length s) + number s.
Proof.
  unfold number. revert acc.
  induction s as [|c s IH]; intros acc.
  - simpl. lia.
  - unfold number_from in *. cbn [fold_left List.length].
    rewrite IH, (IH (10 * 0 + digit_value c)).
    rewrite Nat2Z.inj_succ, Z.pow_succ_r by lia. ring.
Qed.

Lemma number_cons (c : ascii) (s : pystr) :
  number (c :: s) = digit_value c * 10 ^ Z.of_nat (List.length s) + number s.
Proof.
  unfold number at 1. unfold number_from. cbn [fold_left].
  fold (number_from (10 * 0 + digit_value c) s).
  rewrite number_from_app. ring.
Qed.

Lemma is_digit_range (c : ascii) :
  is_digit c = true -> 0 <= digit_value c <= 9.
Proof.
  unfold is_digit, digit_value. cbv zeta.
  rewrite andb_true_iff, !Z.leb_le. lia.
Qed.

Lemma number_bound (s : pystr) :
  all_digits s = true -> 0 <= number s < 10 ^ Z.of_nat (List.length s).
Proof.
  induction s as [|c s IH]; intros H.
  - cbn. lia.
  - cbn [all_digits forallb] in H. apply andb_true_iff in H as [Hc Hs].
    specialize (IH Hs). apply is_digit_range in Hc.
    rewrite number_cons. cbn [List.length].
    rewrite Nat2Z.inj_succ, Z.pow_succ_r by lia. nia.
Qed.

(** On digit strings of one length the order of strings is the order of
    the numbers they write. *)
Lemma str_compare_number (s t : pystr) :
  List.length s = List.length t ->
  all_digits s = true -> all_digits t = true ->
  str_compare s t = Z.compare (number s) (number t).
Proof.
  revert t. induction s as [|a s IH]; intros [|b t] Hlen Hs Ht;
    try discriminate Hlen.
  - reflexivity.
  - cbn [List.length] in Hlen. injection Hlen as Hlen.
    cbn [all_digits forallb] in Hs, Ht.
    apply andb_true_iff in Hs as [Ha Hs], Ht as [Hb Ht].
    pose proof (number_bound s Hs) as Bs.
    pose proof (number_bound t Ht) as Bt.
    rewrite !number_cons, <- Hlen. rewrite <- Hlen in Bt.
    set (P := 10 ^ Z.of_nat (List.length s)) in *.
    cbn [str_compare].
    destruct (N.compare_spec (N_of_ascii a) (N_of_ascii b)) as [E|L|G].
    + rewrite (IH t Hlen Hs Ht). unfold digit_value. rewrite E.
      symmetry. apply Z.add_compare_mono_l.
    + symmetry. apply Z.compare_lt_iff. unfold digit_value. nia.
    + symmetry. apply Z.compare_gt_iff. unfold digit_value. nia.
Qed.

Lemma str_leb_number (s t : pystr) :
  is_date8 s -> is_date8 t ->
  str_leb s t = true -> number s <= number t.
Proof.
  intros [Ls Ds] [Lt Dt]. unfold str_leb, str_ltb.
  rewrite (str_compare_number t s) by congruence.
  destruct (Z.compare_spec (number t) (number s)); simpl;
    try discriminate; lia.
Qed.

(** The number a date writes orders dates as year, month, day do. *)
Lemma number_fields (s : pystr) :
  is_date8 s ->
  number s = 10000 * date_year s + 100 * date_month s + date_day s
  /\ 0 <= date_month s < 100 /\ 0 <= date_day s < 100.
Proof.
  intros [Hl Hd].
  do 8 (destruct s as [|? s]; [discriminate Hl|]).
  destruct s; [|discriminate Hl].
  cbn [all_digits forallb] in Hd.
  repeat match goal with
         | H : _ && _ = true |- _ => apply andb_true_iff in H as [? H]
         end.
  repeat match goal with
         | H : is_digit _ = true |- _ => apply is_digit_range in H
         end.
  unfold date_year, date_month, date_day.
  match goal with
  | |- context [py_slice (Some 0) (Some 4) ?l] =>
      change (py_slice (Some 0) (Some 4) l) with (firstn 4 l);
      change (py_slice (Some 4) (Some 6) l) with (firstn 2 (skipn 4 l));
      change (py_slice (Some 6) (Some 8) l) with (firstn 2 (skipn 6 l))
  end.
  unfold number, number_from. cbn [firstn skipn fold_left]. lia.
Qed.

End DigitFacts.

(** ** The sort *)

Module SortFacts.

Import OrderFacts.

Section Sort.
Context {A : Type} (key : A -> pystr).

Local Abbreviation key_le := (Py.key_le key).
Local Abbreviation with_key := (Py.with_key key).
Local Abbreviation ahead := (@Py.ahead A).

Lemma insert_by_perm (x : A) (l : list A) :
  Permutation (x :: l) (insert_by key x l).
Proof.
  induction l as [|y l IH]; simpl; [reflexivity|].
  destruct (str_ltb (key y) (key x)); [|reflexivity].
  rewrite perm_swap. now constructor.
Qed.

Lemma sort_by_perm (l : list A) : Permutation l (sort_by key l).
Proof.
  induction l as [|x l IH]; simpl; [constructor|].
  rewrite <- insert_by_perm. now constructor.
Qed.

Lemma insert_by_hd (R : A -> A -> Prop) (y x : A) (l : list A) :
  R y x -> HdRel R y l -> HdRel R y (insert_by key x l).
Proof.
  intros Hx Hl. destruct l as [|z l]; simpl; [now constructor|].
  destruct (str_ltb (key z) (key x)); constructor; [|assumption].
  now inversion Hl.
Qed.

Lemma insert_by_sorted (x : A) (l : list A) :
  Sorted key_le l -> Sorted key_le (insert_by key x l).
Proof.
  induction 1 as [|y l Hs IH Hd]; simpl.
  - repeat constructor.
  - destruct (str_ltb (key y) (key x)) eqn:E.
    + constructor; [assumption|].
      apply insert_by_hd; [|assumption].
      now apply str_ltb_leb.
    + constructor; [now constructor|].
      constructor. unfold key_le, str_le, str_leb. now rewrite E.
Qed.

Lemma sort_by_sorted (l : list A) : Sorted key_le (sort_by key l).
Proof.
  induction l as [|x l IH]; simpl; [constructor|].
  now apply insert_by_sorted.
Qed.

(** Elements with one key keep their order. *)
Lemma insert_by_with_key (k : pystr) (x : A) (l : list A) :
  with_key k (insert_by key x l) = with_key k (x :: l).
Proof.
  induction l as [|y l IH]; [reflexivity|].
  cbn [insert_by]. destruct (str_ltb (key y) (key x)) eqn:E; [|reflexivity].
  unfold with_key in *. cbn [filter] in *. rewrite IH.
  destruct (str_eqb (key x) k) eqn:Ex, (str_eqb (key y) k) eqn:Ey;
    try reflexivity.
  apply str_eqb_eq in Ex, Ey. rewrite Ex, Ey, str_ltb_irrefl in E.
  discriminate.
Qed.

Lemma sort_by_with_key (k : pystr) (l : list A) :
  with_key k (sort_by key l) = with_key k l.
Proof.
  induction l as [|x l IH]; [reflexivity|].
  cbn [sort_by]. rewrite insert_by_with_key.
  unfold with_key in *. cbn [filter]. now rewrite IH.
Qed.

Lemma ahead_cons (a b y : A) (l : list A) :
  ahead a b l -> ahead a b (y :: l).
Proof.
  intros (l1 & l2 & l3 & ->). now exists (y :: l1), l2, l3.
Qed.

Lemma ahead_head (a b : A) (l : list A) : In b l -> ahead a b (a :: l).
Proof.
  intros H. apply in_split in H as (l2 & l3 & ->). now exists [], l2, l3.
Qed.

Lemma ahead_inv (a b y : A) (l : list A) :
  ahead a b (y :: l) -> (y = a /\ In b l) \/ ahead a b l.
Proof.
  intros (l1 & l2 & l3 & E). destruct l1 as [|z l1]; simpl in E.
  - injection E as -> ->. left. split; [reflexivity|].
    apply in_or_app. right. now left.
  - injection E as -> ->. right. now exists l1, l2, l3.
Qed.

Lemma insert_by_in (b x : A) (l : list A) :
  In b l -> In b (insert_by key x l).
Proof.
  intros H. apply (Permutation_in b (insert_by_perm x l)). now right.
Qed.

Lemma insert_by_ahead_old (a b x : A) (l : list A) :
  ahead a b l -> ahead a b (insert_by key x l).
Proof.
  induction l as [|y l IH]; intros H.
  - destruct H as (l1 & l2 & l3 & E). now destruct l1.
  - cbn [insert_by]. destruct (str_ltb (key y) (key x)).
    + apply ahead_inv in H as [[-> Hb]|H].
      * apply ahead_head. now apply insert_by_in.
      * apply ahead_cons. now apply IH.
    + now apply ahead_cons.
Qed.

Lemma insert_by_ahead_new (a b : A) (l : list A) :
  key a = key b -> In b l -> ahead a b (insert_by key a l).
Proof.
  intros Hk. induction l as [|y l IH]; intros H; [contradiction|].
  cbn [insert_by]. destruct (str_ltb (key y) (key a)) eqn:E.
  - destruct H as [->|H].
    + rewrite Hk, str_ltb_irrefl in E. discriminate.
    + apply ahead_cons. now apply IH.
  - now apply ahead_head.
Qed.

Lemma sort_by_in (b : A) (l : list A) : In b l -> In b (sort_by key l).
Proof. apply Permutation_in, sort_by_perm. Qed.

Lemma sort_by_ahead (a b : A) (l : list A) :
  key a = key b -> ahead a b l -> ahead a b (sort_by key l).
Proof.
  intros Hk. induction l as [|y l IH]; intros H.
  - destruct H as (l1 & l2 & l3 & E). now destruct l1.
  - cbn [sort_by]. apply ahead_inv in H as [[-> Hb]|H].
    + apply insert_by_ahead_new; [assumption|]. now apply sort_by_in.
    + apply insert_by_ahead_old. now apply IH.
Qed.

Lemma with_key_head (x : A) (l : list A) :
  with_key (key x) (x :: l) = x :: with_key (key x) l.
Proof.
  unfold with_key. cbn [filter].
  now rewrite (proj2 (str_eqb_eq (key x) (key x)) eq_refl).
Qed.

Lemma with_key_in (k : pystr) (a : A) (l : list A) :
  In a (with_key k l) -> In a l /\ key a = k.
Proof.
  unfold with_key. rewrite filter_In. intros [H E].
  split; [assumption | now apply str_eqb_eq].
Qed.

Lemma with_key_other (k : pystr) (x : A) (l : list A) :
  key x <> k -> with_key k (x :: l) = with_key k l.
Proof.
  intros H. unfold Py.with_key. cbn [filter].
  destruct (str_eqb (key x) k) eqn:E; [|reflexivity].
  now apply str_eqb_eq in E.
Qed.

Lemma key_le_trans (a b c : A) : key_le a b -> key_le b c -> key_le a c.
Proof. apply str_leb_trans. Qed.

Lemma sorted_head_least (x y : A) (l m : list A) :
  Sorted key_le (x :: l) ->
  with_key (key y) (x :: l) = with_key (key y) (y :: m) ->
  key_le x y.
Proof.
  intros Hs E. rewrite with_key_head in E.
  assert (In y (with_key (key y) (x :: l))) as Hy by (rewrite E; now left).
  apply with_key_in in Hy as [Hy _].
  apply Sorted_StronglySorted in Hs; [|exact key_le_trans].
  inversion Hs as [|? ? _ Hall]; subst.
  destruct Hy as [->|Hy].
  - apply str_leb_refl.
  - rewrite Forall_forall in Hall. exact (Hall _ Hy).
Qed.

(** Two lists sorted by key in which the elements of each key come in
    one order are equal: the order the language guarantees leaves no
    choice, so [sort_by] is the result of any stable sort. *)
Lemma stable_sorted_unique (l m : list A) :
  Sorted key_le l -> Sorted key_le m ->
  (forall k, with_key k l = with_key k m) -> l = m.
Proof.
  revert m. induction l as [|x l IH]; intros [|y m] Hl Hm E.
  - reflexivity.
  - specialize (E (key y)). rewrite with_key_head in E. discriminate.
  - specialize (E (key x)). rewrite with_key_head in E. discriminate.
  - assert (key x = key y) as Hk.
    { apply str_leb_antisym.
      - apply (sorted_head_least x y l m Hl (E (key y))).
      - apply (sorted_head_least y x m l Hm (eq_sym (E (key x)))). }
    pose proof (E (key x)) as Ex.
    rewrite with_key_head, Hk, with_key_head in Ex.
    injection Ex as -> Ex. f_equal.
    apply IH.
    + now inversion Hl.
    + now inversion Hm.
    + intros k. specialize (E k).
      destruct (str_eqb (key y) k) eqn:Ey.
      * apply str_eqb_eq in Ey. subst k.
        rewrite !with_key_head in E. now injection E.
      * assert (key y <> k) as Hn
            by (intros Hc; apply str_eqb_eq in Hc; congruence).
        rewrite with_key_other in E by congruence.
        now rewrite with_key_other in E by congruence.
Qed.

End Sort.

End SortFacts.

(** ** Catalog search: parsing *)

Module CatalogFacts.

Import Catalog SliceFacts.

Lemma file_of_length (key : pystr) :
  (36 <= List.length key)%nat -> List.length (file_of key) = 36%nat.
Proof.
  intros H. unfold file_of.
  change (-36) with (- Z.of_nat 36).
  rewrite slice_last by lia. rewrite length_skipn. lia.
Qed.

Lemma file_of_suffix (pre file : pystr) :
  List.length file = 36%nat -> file_of (pre ++ file) = file.
Proof.
  intros H. unfold file_of. change (-36) with (- Z.of_nat 36).
  apply slice_suffix; [assumption | lia].
Qed.

Lemma scene_file_length (sat date tile dir asset : pystr) :
  fixed_width sat date tile dir asset ->
  List.length (scene_file sat date tile dir asset) = 36%nat.
Proof.
  intros (H1 & H2 & H3 & H4 & H5). unfold scene_file.
  rewrite !length_app. simpl. lia.
Qed.

(** C9. For every key of at least 36 characters, the sort key [key[-32:-24]]
    is the date field [file[4:12]] of the file name [file = key[-36:]]: the
    order of the sort and the dates of the relabelling come from the same
    eight characters. *)
Theorem sort_key_is_date (key : pystr) :
  (36 <= List.length key)%nat ->
  sort_key key = date_of (file_of key).
Proof.
  intros Hlen. unfold sort_key, date_of.
  pose proof (file_of_length key Hlen) as Hf.
  change (-32) with (- Z.of_nat 32). change (-24) with (- Z.of_nat 24).
  rewrite slice_from_end by lia.
  change 4 with (Z.of_nat 4). change 12 with (Z.of_nat 12).
  rewrite slice_inside by lia.
  unfold file_of. change (-36) with (- Z.of_nat 36).
  rewrite slice_last by lia.
  rewrite skipn_skipn.
  f_equal. f_equal. lia.
Qed.

Lemma sort_key_is_date_witness :
  sort_key key_20200106 = date_of (file_of key_20200106).
Proof.
  apply (sort_key_is_date key_20200106). vm_compute. lia.
Defined.

(** On a key shorter than 36 characters the two substrings part. *)
Example sort_key_short_key :
  sort_key (str "2020/S1B_20200106_12SYJ_ASC/Gamma0") = str "20/S1B_2"
  /\ date_of (file_of (str "2020/S1B_20200106_12SYJ_ASC/Gamma0")) = str "/S1B_202".
Proof. split; reflexivity. Qed.

Ltac explicit_list l H :=
  repeat (destruct l as [|? l]; [discriminate H|]);
  destruct l; [clear H | discriminate H].

(** C3. A key that ends in a scene file of the documented layout and fixed
    widths is parsed back exactly: [key[-36:]] is the file name, and the
    characters [0:3], [4:12] and [19:22] of it are the satellite, the date
    and the orbit direction the file name was built from. *)
Theorem parse_scene_file (pre sat date tile dir asset : pystr) :
  fixed_width sat date tile dir asset ->
  let key := pre ++ scene_file sat date tile dir asset in
  file_of key = scene_file sat date tile dir asset
  /\ satellite_of (file_of key) = sat
  /\ date_of (file_of key) = date
  /\ direction_of (file_of key) = dir.
Proof.
  intros Hw key. subst key.
  rewrite file_of_suffix by (apply scene_file_length; exact Hw).
  destruct Hw as (H1 & H2 & H3 & H4 & H5).
  split; [reflexivity|].
  explicit_list sat H1. explicit_list date H2. explicit_list tile H3.
  explicit_list dir H4. explicit_list asset H5.
  repeat split; reflexivity.
Qed.

Lemma parse_scene_file_witness :
  let key := str "sentinel-s1-rtc-indigo/tiles/RTC/1/IW/12/S/YJ/2020/"
                 ++ scene_file (str "S1B") (str "20200106") (str "12SYJ")
                               (str "ASC") (str "Gamma0_VV.tif") in
  file_of key = scene_file (str "S1B") (str "20200106") (str "12SYJ")
                           (str "ASC") (str "Gamma0_VV.tif")
  /\ satellite_of (file_of key) = str "S1B"
  /\ date_of (file_of key) = str "20200106"
  /\ direction_of (file_of key) = str "ASC".
Proof.
  apply (parse_scene_file
           (str "sentinel-s1-rtc-indigo/tiles/RTC/1/IW/12/S/YJ/2020/")
           (str "S1B") (str "20200106") (str "12SYJ") (str "ASC")
           (str "Gamma0_VV.tif")).
  unfold fixed_width. repeat split; reflexivity.
Defined.

(** ** Catalog search: the chronological sort *)

Lemma dated_sorted_numbers (l : list pystr) :
  Forall dated l -> Sorted (key_le sort_key) l ->
  Sorted Z.le (map date_number l).
Proof.
  intros Hd Hs. induction Hs as [|x l Hs IH Hh]; simpl; [constructor|].
  inversion Hd as [|? ? Hx Hl]; subst.
  constructor; [now apply IH|].
  destruct Hh as [|y l Hxy]; simpl; constructor.
  inversion Hl; subst.
  now apply DigitFacts.str_leb_number.
Qed.

Lemma listed_keys_dated : Forall dated listed_keys.
Proof. repeat constructor. Qed.

(** C1. Whatever the order of the listing, when every key carries an
    8-digit date at [-32:-24] the sort returns the same keys with their
    dates in non-decreasing order; the three keys listed with the dates
    20200101, 20200103, 20200102 come out as 20200101, 20200102,
    20200103. *)
Theorem sort_keys_chronological :
  (forall keys : list pystr,
      Forall dated keys ->
      Permutation keys (sort_keys keys)
      /\ StronglySorted Z.le (map date_number (sort_keys keys)))
  /\ sort_keys listed_keys = [key_20200101; key_20200102; key_20200103]
  /\ map sort_key (sort_keys listed_keys)
     = [str "20200101"; str "20200102"; str "20200103"].
Proof.
  split; [|split; reflexivity].
  intros keys Hd. unfold sort_keys.
  pose proof (SortFacts.sort_by_perm sort_key keys) as Hp.
  split; [exact Hp|].
  apply Sorted_StronglySorted; [exact Z.le_trans|].
  apply dated_sorted_numbers.
  - rewrite Forall_forall in *. intros k Hk. apply Hd.
    apply (Permutation_in k (Permutation_sym Hp) Hk).
  - apply SortFacts.sort_by_sorted.
Qed.

Lemma sort_keys_chronological_witness :
  Permutation listed_keys (sort_keys listed_keys)
  /\ StronglySorted Z.le (map date_number (sort_keys listed_keys)).
Proof.
  apply (proj1 sort_keys_chronological listed_keys).
  exact listed_keys_dated.
Defined.

(** The order of the full keys is another one: the satellite comes before
    the date in the file name. *)
Example lexical_order_differs :
  sort_by (fun key => key) listed_keys
  = [key_20200103; key_20200101; key_20200102].
Proof. reflexivity. Qed.

(** C10. The sort is stable: for every list of keys, the keys of each date
    come out in the order they had in the listing; in particular a key
    listed ahead of another with the same date substring is still ahead of
    it after the sort. *)
Theorem sort_keys_stable (keys : list pystr) :
  (forall d : pystr,
      with_key sort_key d (sort_keys keys) = with_key sort_key d keys)
  /\ (forall a b : pystr,
         sort_key a = sort_key b -> ahead a b keys ->
         ahead a b (sort_keys keys)).
Proof.
  split.
  - intros d. apply SortFacts.sort_by_with_key.
  - intros a b. apply SortFacts.sort_by_ahead.
Qed.

Lemma sort_keys_stable_witness :
  ahead key_20200101 key_20200101_S1A
        (sort_keys [key_20200103; key_20200101; key_20200102; key_20200101_S1A]).
Proof.
  apply (proj2 (sort_keys_stable
                  [key_20200103; key_20200101; key_20200102; key_20200101_S1A])
               key_20200101 key_20200101_S1A).
  - reflexivity.
  - exists [key_20200103], [key_20200102], []. reflexivity.
Defined.

(** The result of the sort is the only stable, sorted arrangement. *)
Corollary sort_keys_determined (keys out : list pystr) :
  Sorted (key_le sort_key) out ->
  (forall d, with_key sort_key d out = with_key sort_key d keys) ->
  out = sort_keys keys.
Proof.
  intros Hs He. apply (SortFacts.stable_sorted_unique sort_key).
  - exact Hs.
  - apply SortFacts.sort_by_sorted.
  - intros d. rewrite He. symmetry. apply SortFacts.sort_by_with_key.
Qed.

End CatalogFacts.

(** ** Mosaic construction *)

Module MosaicFacts.

Import Catalog Mosaic.

Lemma write_manifest_from (content : pystr) (keys : list pystr) :
  fold_left (fun c key => c ++ manifest_line key) keys content
  = content ++ concat (map manifest_line keys).
Proof.
  revert content. induction keys as [|k keys IH]; intros content; simpl.
  - now rewrite app_nil_r.
  - rewrite IH. now rewrite <- app_assoc.
Qed.

Lemma write_manifest_concat (keys : list pystr) :
  write_manifest keys = concat (map manifest_line keys).
Proof. unfold write_manifest. now rewrite write_manifest_from. Qed.

Lemma lines_first (l rest : pystr) :
  no_newline l -> lines (l ++ newline :: rest) = l :: lines rest.
Proof.
  unfold no_newline. induction l as [|c l IH]; intros H.
  - reflexivity.
  - cbn [forallb] in H. apply andb_true_iff in H as [Hc Hl].
    cbn [app lines]. apply negb_true_iff in Hc. rewrite Hc.
    now rewrite (IH Hl).
Qed.

Lemma no_newline_app (s t : pystr) :
  no_newline s -> no_newline t -> no_newline (s ++ t).
Proof.
  unfold no_newline. rewrite forallb_app. intros -> ->. reflexivity.
Qed.

Lemma lines_manifest (keys : list pystr) :
  Forall no_newline keys ->
  lines (concat (map manifest_line keys)) = map (fun key => vsis3 ++ key) keys.
Proof.
  induction 1 as [|k keys Hk Hks IH]; [reflexivity|].
  cbn [map concat]. unfold manifest_line at 1.
  rewrite app_assoc, <- app_assoc. cbn [app].
  rewrite lines_first, IH; [reflexivity|].
  apply no_newline_app; [reflexivity | exact Hk].
Qed.

(** C8. The manifest is the concatenation, in the order of the keys, of one
    record ["/vsis3/" ++ key ++ "\n"] per key; read back as lines it has
    exactly one line per key (the keys holding no newline), line [i] being
    the prefix followed by key [i]. *)
Theorem manifest_one_line_per_key (keys : list pystr) :
  write_manifest keys = concat (map manifest_line keys)
  /\ (Forall no_newline keys ->
      lines (write_manifest keys) = map (fun key => vsis3 ++ key) keys
      /\ List.length (lines (write_manifest keys)) = List.length keys
      /\ forall (i : nat) (key : pystr),
          nth_error keys i = Some key ->
          nth_error (lines (write_manifest keys)) i = Some (vsis3 ++ key)).
Proof.
  split; [apply write_manifest_concat|].
  intros H. rewrite write_manifest_concat, lines_manifest by exact H.
  split; [reflexivity|]. split; [apply length_map|].
  intros i key Hi. now rewrite nth_error_map, Hi.
Qed.

Lemma listed_keys_no_newline : Forall no_newline (sort_keys listed_keys).
Proof. repeat constructor. Qed.

Lemma manifest_one_line_per_key_witness :
  lines (write_manifest (sort_keys listed_keys))
  = [str "/vsis3/" ++ key_20200101; str "/vsis3/" ++ key_20200102;
     str "/vsis3/" ++ key_20200103].
Proof.
  apply (proj2 (manifest_one_line_per_key (sort_keys listed_keys))).
  exact listed_keys_no_newline.
Defined.

(** A key with a newline in it takes two lines of the manifest. *)
Example manifest_newline_in_key :
  lines (write_manifest [str "a" ++ [newline] ++ str "b"])
  = [str "/vsis3/a"; str "b"].
Proof. reflexivity. Qed.

(** ** Temporal relabelling *)

Section Relabel.
Context {Stamp : Type}.
Variable to_datetime : pystr -> option Stamp.
Variable read_band : pystr -> layer.
Variables grid_y grid_x : list Q.

Lemma datetimes_labelled (fs : list pystr) :
  (forall f, In f fs -> to_datetime (date_of f) <> None) ->
  exists ts : list Stamp,
    datetimes to_datetime (map Some fs) = Some ts
    /\ map Some ts = map (fun f => to_datetime (date_of f)) fs.
Proof.
  induction fs as [|f fs IH]; intros H.
  - now exists [].
  - destruct IH as (ts & Hts & Hmap); [intros g Hg; apply H; now right|].
    destruct (to_datetime (date_of f)) as [d|] eqn:E;
      [|now contradiction (H f (or_introl eq_refl))].
    exists (d :: ts). cbn [map datetimes]. rewrite E, Hts, Hmap.
    now split.
Qed.

Lemma build_mosaic_bands (keys : list pystr) :
  keys <> [] -> Forall no_newline keys ->
  build_mosaic keys
  = Some (Vrt (map (fun key => vsis3 ++ key) keys) (map Some (files keys))).
Proof.
  intros Hne H. unfold build_mosaic, gdalbuildvrt.
  rewrite write_manifest_concat, lines_manifest by exact H.
  destruct (map (fun key => vsis3 ++ key) keys) as [|l ls] eqn:E.
  - destruct keys; [contradiction | discriminate E].
  - rewrite <- E. unfold set_descriptions. cbn [sources].
    unfold files. rewrite !length_map, Nat.eqb_refl. reflexivity.
Qed.

(** Without a key there is no mosaic, and so no raster to relabel. *)
Lemma no_key_no_mosaic :
  build_mosaic [] = None
  /\ time_indexed to_datetime read_band grid_y grid_x [] = None.
Proof. split; reflexivity. Qed.

(** C2. For N keys, at least one, free of newlines, whose labels carry a
    date the parser accepts at characters [4:12]: the mosaic is built with
    a band per key and the N file names (the last 36 characters of the
    keys) as band descriptions, in the order of the keys; the timestamps
    are read from those descriptions, characters [4:12] of each; the layers
    are those of the opened mosaic, untouched; so for every [i] below N,
    position [i] of the time axis is the date of label [i] and layer [i] is
    the band of key [i]. *)
Theorem relabel_positional (keys : list pystr) :
  keys <> [] ->
  Forall no_newline keys ->
  (forall key : pystr,
      In key keys ->
      to_datetime (py_slice (Some 4) (Some 12) (py_slice (Some (-36)) None key))
      <> None) ->
  exists (v : vrt) (da : data_array Stamp),
    build_mosaic keys = Some v
    /\ sources v = map (fun key => vsis3 ++ key) keys
    /\ descriptions v
       = map (fun key => Some (py_slice (Some (-36)) None key)) keys
    /\ time_indexed to_datetime read_band grid_y grid_x keys = Some da
    /\ datetimes to_datetime (descriptions v) = Some (da_coord da)
    /\ map Some (da_coord da) = map to_datetime (dates (files keys))
    /\ da_values da
       = da_values (open_rasterio read_band grid_y grid_x v)
    /\ List.length (da_coord da) = List.length keys
    /\ List.length (da_values da) = List.length keys
    /\ forall (i : nat) (key : pystr),
        nth_error keys i = Some key ->
        exists (label : pystr) (t : Stamp),
          nth_error (descriptions v) i = Some (Some label)
          /\ label = py_slice (Some (-36)) None key
          /\ to_datetime (py_slice (Some 4) (Some 12) label) = Some t
          /\ nth_error (da_coord da) i = Some t
          /\ nth_error (da_values da) i = Some (read_band (vsis3 ++ key)).
Proof.
  intros Hne H Hparse.
  destruct (datetimes_labelled (files keys)) as (ts & Hts & Hmap).
  { intros f Hf. unfold files in Hf.
    apply in_map_iff in Hf as (key & <- & Hk). exact (Hparse key Hk). }
  assert (List.length ts = List.length keys) as Hlen.
  { rewrite <- (length_map Some ts), Hmap. unfold files.
    now rewrite !length_map. }
  set (v := Vrt (map (fun key => vsis3 ++ key) keys) (map Some (files keys))).
  exists v, (DataArray ts grid_y grid_x (map read_band (sources v))).
  assert (build_mosaic keys = Some v) as Hb by now apply build_mosaic_bands.
  assert (time_indexed to_datetime read_band grid_y grid_x keys
          = Some (DataArray ts grid_y grid_x (map read_band (sources v))))
    as Ht.
  { unfold time_indexed. rewrite Hb. unfold relabel.
    cbn [descriptions v]. rewrite Hts.
    unfold assign_time, open_rasterio. cbn [da_coord da_y da_x da_values].
    cbn [sources v].
    rewrite !length_map, length_seq, ?length_map, Hlen, Nat.eqb_refl.
    reflexivity. }
  split; [exact Hb|]. split; [reflexivity|].
  split; [cbn [descriptions v]; unfold files; now rewrite map_map|].
  split; [exact Ht|]. split; [exact Hts|].
  split; [cbn [da_coord]; rewrite Hmap; unfold dates; now rewrite map_map|].
  split; [reflexivity|]. split; [exact Hlen|].
  split; [cbn [da_values sources v]; now rewrite !length_map|].
  intros i key Hi. cbn [descriptions da_coord da_values sources v].
  assert (nth_error (map Some ts) i
          = Some (to_datetime (date_of (file_of key)))) as Hi'.
  { rewrite Hmap. unfold files. now rewrite !nth_error_map, Hi. }
  rewrite nth_error_map in Hi'.
  destruct (nth_error ts i) as [t|] eqn:Et; [|discriminate Hi'].
  injection Hi' as Hi'.
  exists (py_slice (Some (-36)) None key), t.
  split; [unfold files; now rewrite !nth_error_map, Hi|].
  split; [reflexivity|]. split; [symmetry; exact Hi'|].
  split; [reflexivity|]. now rewrite !nth_error_map, Hi.
Qed.
End Relabel.

Lemma listed_keys_parse (key : pystr) :
  In key (sort_keys listed_keys) ->
  Digits.parse_date8
    (py_slice (Some 4) (Some 12) (py_slice (Some (-36)) None key))
  <> None.
Proof. intros [<-|[<-|[<-|[]]]]; discriminate. Qed.

(** An instance: the parser of 8-digit dates, and bands that show the date
    of the path they are read from. *)
Lemma relabel_positional_witness :
  exists (v : vrt) (da : data_array Z),
    build_mosaic (sort_keys listed_keys) = Some v
    /\ sources v = map (fun key => vsis3 ++ key) (sort_keys listed_keys)
    /\ descriptions v
       = map (fun key => Some (py_slice (Some (-36)) None key))
             (sort_keys listed_keys)
    /\ time_indexed Digits.parse_date8 band_of_date [] []
                    (sort_keys listed_keys)
       = Some da
    /\ datetimes Digits.parse_date8 (descriptions v) = Some (da_coord da)
    /\ map Some (da_coord da)
       = map Digits.parse_date8 (dates (files (sort_keys listed_keys)))
    /\ da_values da = da_values (open_rasterio band_of_date [] [] v)
    /\ List.length (da_coord da) = List.length (sort_keys listed_keys)
    /\ List.length (da_values da) = List.length (sort_keys listed_keys)
    /\ forall (i : nat) (key : pystr),
        nth_error (sort_keys listed_keys) i = Some key ->
        exists (label : pystr) (t : Z),
          nth_error (descriptions v) i = Some (Some label)
          /\ label = py_slice (Some (-36)) None key
          /\ Digits.parse_date8 (py_slice (Some 4) (Some 12) label) = Some t
          /\ nth_error (da_coord da) i = Some t
          /\ nth_error (da_values da) i = Some (band_of_date (vsis3 ++ key)).
Proof.
  apply (relabel_positional Digits.parse_date8 band_of_date [] []
                            (sort_keys listed_keys)).
  - discriminate.
  - exact listed_keys_no_newline.
  - exact listed_keys_parse.
Defined.

(** The three keys: the time axis and the bands, side by side. *)
Example relabel_listed_keys :
  option_map (fun da => combine (da_coord da) (da_values da))
    (time_indexed Digits.parse_date8 band_of_date [] [] (sort_keys listed_keys))
  = Some [(20200101%Z, [[Some (20200101 # 1)]]);
          (20200102%Z, [[Some (20200102 # 1)]]);
          (20200103%Z, [[Some (20200103 # 1)]])].
Proof. reflexivity. Qed.

(** In the order of the listing the bands follow the listing, and so do the
    dates. *)
Example relabel_in_listing_order :
  option_map (fun da => combine (da_coord da) (da_values da))
    (time_indexed Digits.parse_date8 band_of_date [] [] listed_keys)
  = Some [(20200101%Z, [[Some (20200101 # 1)]]);
          (20200103%Z, [[Some (20200103 # 1)]]);
          (20200102%Z, [[Some (20200102 # 1)]])].
Proof. reflexivity. Qed.

(** A label whose characters [4:12] are no date: the parser raises and
    there is no raster. *)
Example relabel_no_date :
  time_indexed Digits.parse_date8 band_of_date [] []
               [str "2020/S1B_20200106_12SYJ_ASC/Gamma0"]
  = None.
Proof. reflexivity. Qed.

End MosaicFacts.

(** ** An empty search *)

Module PipelineFacts.

Import Catalog Mosaic Pipeline.

Lemma glob_none (listing : list pystr) (matches : pystr -> bool) :
  (forall k, In k listing -> matches k = false) -> glob listing matches = [].
Proof.
  intros H. unfold glob. induction listing as [|k l IH]; [reflexivity|].
  cbn [filter]. rewrite (H k) by now left.
  apply IH. intros k' Hk'. apply H. now right.
Qed.

(** C5. When no listed key matches, the search returns the empty list, of
    length zero, and the cells that follow it up to the manifest run to
    the end on it: the sort, the four extractions and the manifest writer
    return empty results and none raises. *)
Theorem empty_search_is_accepted
        (listing : list pystr) (matches : pystr -> bool) :
  (forall k, In k listing -> matches k = false) ->
  glob listing matches = []
  /\ List.length (glob listing matches) = 0%nat
  /\ sort_keys (glob listing matches) = []
  /\ after_search (glob listing matches) = Ok (MkCatalog [] [] [] [] [] []).
Proof.
  intros H. rewrite (glob_none listing matches H).
  repeat split; reflexivity.
Qed.

Lemma empty_search_is_accepted_witness :
  glob listed_keys (fun _ => false) = []
  /\ List.length (glob listed_keys (fun _ => false)) = 0%nat
  /\ sort_keys (glob listed_keys (fun _ => false)) = []
  /\ after_search (glob listed_keys (fun _ => false))
     = Ok (MkCatalog [] [] [] [] [] []).
Proof.
  apply (empty_search_is_accepted listed_keys (fun _ => false)).
  intros k _. reflexivity.
Defined.

(** The cell that opens the first image is not among those: it indexes the
    empty list. *)
Example first_url_empty : first_url [] = Raise IndexError.
Proof. reflexivity. Qed.

End PipelineFacts.

(** ** Aggregation *)

Module AggregationFacts.

Import Aggregation Region.
Local Open Scope Q_scope.

Lemma nth_map_seq {B : Type} (f : nat -> B) (n i : nat) (d : B) :
  (i < n)%nat -> nth i (map f (seq 0 n)) d = f i.
Proof.
  intros H. rewrite (nth_indep _ d (f 0%nat)) by now rewrite length_map, length_seq.
  rewrite map_nth, seq_nth by exact H. reflexivity.
Qed.

Lemma pixel_at_mean_layers (ny nx : nat) (g : list layer) (j i : nat) :
  (j < ny)%nat -> (i < nx)%nat ->
  pixel_at (mean_layers ny nx g) j i = mean_skipna (pixel_stack g j i).
Proof.
  intros Hj Hi. unfold pixel_at, mean_layers.
  rewrite nth_map_seq by exact Hj. now rewrite nth_map_seq by exact Hi.
Qed.

Lemma pixel_at_map (f : pixel -> pixel) (L : layer) (j i : nat) :
  f None = None ->
  pixel_at (map (map f) L) j i = f (pixel_at L j i).
Proof.
  intros Hf. unfold pixel_at.
  change (@nil pixel) with (map f []) at 1. rewrite map_nth.
  rewrite <- Hf at 1. now rewrite map_nth.
Qed.

Lemma pixel_stack_map (f : pixel -> pixel) (g : list layer) (j i : nat) :
  f None = None ->
  pixel_stack (map (map (map f)) g) j i = map f (pixel_stack g j i).
Proof.
  intros Hf. unfold pixel_stack. rewrite !map_map.
  apply map_ext. intros L. now apply pixel_at_map.
Qed.

Lemma mean_skipna_valid (l : list pixel) : mean_skipna l = mean_of (valid l).
Proof. reflexivity. Qed.

Lemma valid_mask_zero (l : list pixel) :
  valid (map mask_zero l) = observations l.
Proof.
  unfold observations.
  induction l as [|[q|] l IH]; [reflexivity| |exact IH].
  cbn [map valid filter]. unfold mask_zero at 1, where_px, nonzero, is_obs at 1.
  destruct (Qeq_bool q 0); cbn [negb valid]; now rewrite IH.
Qed.

Lemma mask_nodata_none (nodata : option Q) : mask_nodata nodata None = None.
Proof. now destruct nodata. Qed.

Lemma valid_mask_nodata (nodata : option Q) (l : list pixel) :
  valid (map (mask_nodata nodata) l) = filter (not_nodata nodata) (valid l).
Proof.
  induction l as [|[q|] l IH]; [reflexivity| |].
  - cbn [map valid filter].
    destruct nodata as [nd|]; cbn [mask_nodata not_nodata] in *.
    + destruct (Qeq_bool q nd); cbn [negb valid]; now rewrite IH.
    + cbn [valid]. now rewrite IH.
  - cbn [map]. rewrite mask_nodata_none. exact IH.
Qed.

(** Declaring zero as the no-data value masks what [!= 0] masks. *)
Lemma not_nodata_zero (q : Q) : not_nodata (Some 0) q = is_obs q.
Proof. reflexivity. Qed.

Section Resample.
Context {Stamp : Type}.
Variable stamp_leb : Stamp -> Stamp -> bool.
Variable month_of : Stamp -> Z.

Lemma group_map (f : layer -> layer) (c : list Stamp) (y x : list Q)
      (vals : list layer) (m : Z) :
  group month_of (DataArray c y x (map f vals)) m
  = map f (group month_of (DataArray c y x vals) m).
Proof.
  unfold group. cbn [da_coord da_values].
  revert vals. induction c as [|t c IH]; intros [|v vals];
    try reflexivity.
  cbn [map combine filter fst].
  destruct (Z.eqb (month_of t) m); cbn [map snd]; now rewrite IH.
Qed.

Lemma monthly_layers_layer (da : data_array Stamp) (k : nat) (m : Z) :
  nth_error (da_coord (monthly_layers month_of da)) k = Some m ->
  nth_error (da_values (monthly_layers month_of da)) k
  = Some (mean_layers (List.length (da_y da)) (List.length (da_x da))
                      (group month_of da m)).
Proof.
  unfold monthly_layers. cbn [da_coord da_values]. intros H.
  now rewrite nth_error_map, H.
Qed.

(** Resampling succeeds exactly on a monotonic time index, with the layers
    of the months. *)
Lemma resample_mean_some (da : data_array Stamp) :
  monotonic stamp_leb (da_coord da) = true ->
  resample_mean stamp_leb month_of da = Some (monthly_layers month_of da).
Proof. unfold resample_mean. now intros ->. Qed.

Lemma resample_mean_inv (da : data_array Stamp) (out : data_array Z) :
  resample_mean stamp_leb month_of da = Some out ->
  monotonic stamp_leb (da_coord da) = true
  /\ out = monthly_layers month_of da.
Proof.
  unfold resample_mean. destruct (monotonic stamp_leb (da_coord da));
    [|discriminate].
  intros [= <-]. now split.
Qed.

(** Every pixel of a monthly layer of [mosaic_mean] is the mean of the
    observations of that pixel in the month. *)
Lemma mosaic_mean_layer (da : data_array Stamp) (k : nat) (m : Z) :
  nth_error (da_coord (monthly_layers month_of (where_nonzero da))) k
  = Some m ->
  exists L : layer,
    nth_error (da_values (monthly_layers month_of (where_nonzero da))) k
    = Some L
    /\ forall j i : nat,
        (j < List.length (da_y da))%nat -> (i < List.length (da_x da))%nat ->
        pixel_at L j i
        = mean_of (observations (pixel_stack (group month_of da m) j i)).
Proof.
  intros H.
  apply monthly_layers_layer in H. eexists. split; [exact H|].
  intros j i Hj Hi. cbn [where_nonzero da_y da_x].
  rewrite pixel_at_mean_layers by assumption.
  unfold where_nonzero. destruct da as [c y x vals]. cbn [da_coord da_y da_x da_values].
  rewrite group_map, pixel_stack_map by reflexivity.
  now rewrite mean_skipna_valid, valid_mask_zero.
Qed.

Lemma Zmin_list_spec (d : Z) (l : list Z) :
  (Zmin_list d l <= d)%Z
  /\ Forall (fun z => (Zmin_list d l <= z)%Z) l
  /\ In (Zmin_list d l) (d :: l).
Proof.
  unfold Zmin_list. revert d. induction l as [|a l IH]; intros d.
  - cbn. repeat split; [lia | constructor | now left].
  - cbn [fold_left]. destruct (IH (Z.min d a)) as (H1 & H2 & H3).
    split; [lia|]. split.
    + constructor; [lia | exact H2].
    + destruct H3 as [H3|H3]; [|now right; right].
      rewrite <- H3. destruct (Z.min_spec d a) as [[_ ->]|[_ ->]];
        [now left | now right; left].
Qed.

Lemma Zmax_list_spec (d : Z) (l : list Z) :
  (d <= Zmax_list d l)%Z
  /\ Forall (fun z => (z <= Zmax_list d l)%Z) l
  /\ In (Zmax_list d l) (d :: l).
Proof.
  unfold Zmax_list. revert d. induction l as [|a l IH]; intros d.
  - cbn. repeat split; [lia | constructor | now left].
  - cbn [fold_left]. destruct (IH (Z.max d a)) as (H1 & H2 & H3).
    split; [lia|]. split.
    + constructor; [lia | exact H2].
    + destruct H3 as [H3|H3]; [|now right; right].
      rewrite <- H3. destruct (Z.max_spec d a) as [[_ ->]|[_ ->]];
        [now right; left | now left].
Qed.

(** The months of the output run from the earliest to the latest month of
    the timestamps, without a gap. *)
Lemma bins_between (ts : list Stamp) (t1 t2 : Stamp) (m : Z) :
  In t1 ts -> In t2 ts ->
  (month_of t1 <= m <= month_of t2)%Z ->
  In m (bins month_of ts).
Proof.
  intros H1 H2 Hm. unfold bins.
  apply (in_map month_of) in H1, H2.
  destruct (map month_of ts) as [|d l]; [contradiction|].
  destruct (Zmin_list_spec d l) as (Ha & Hb & _).
  destruct (Zmax_list_spec d l) as (Hc & Hd & _).
  rewrite Forall_forall in Hb, Hd.
  assert (Zmin_list d l <= month_of t1)%Z as Lo
      by (destruct H1 as [<-|H1]; [exact Ha | now apply Hb]).
  assert (month_of t2 <= Zmax_list d l)%Z as Hi
      by (destruct H2 as [<-|H2]; [exact Hc | now apply Hd]).
  apply in_map_iff. exists (Z.to_nat (m - Zmin_list d l)).
  split; [lia|]. apply in_seq. lia.
Qed.

Lemma select_map {B C : Type} (f : B -> C) (mask : list bool) (l : list B) :
  select mask (map f l) = map f (select mask l).
Proof.
  revert l. induction mask as [|b mask IH]; intros [|a l]; try reflexivity.
  cbn [map select]. destruct b; cbn [map]; now rewrite IH.
Qed.

(** Masking on opening and selecting by coordinates commute. *)
Lemma sel_xy_open_masked (nodata : option Q) (da : data_array Stamp)
      (x0 x1 y0 y1 : Q) :
  sel_xy (open_masked nodata da) x0 x1 y0 y1
  = option_map (open_masked nodata) (sel_xy da x0 x1 y0 y1).
Proof.
  unfold sel_xy, open_masked. cbn [da_coord da_y da_x da_values].
  destruct (slice_mask (da_x da) x0 x1) as [kx|]; [|reflexivity].
  destruct (slice_mask (da_y da) y0 y1) as [ky|]; [|reflexivity].
  cbn [option_map da_coord da_y da_x da_values]. do 2 f_equal.
  rewrite !map_map. apply map_ext. intros L.
  rewrite select_map, !map_map. apply map_ext. intros row.
  now rewrite select_map.
Qed.

(** Every pixel of a monthly layer of the full-resolution [subset] is the
    mean of the values of that pixel in the month that differ from the
    declared no-data value. *)
Lemma sel_xy_coord (da sub : data_array Stamp) (x0 x1 y0 y1 : Q) :
  sel_xy da x0 x1 y0 y1 = Some sub -> da_coord sub = da_coord da.
Proof.
  unfold sel_xy.
  destruct (slice_mask (da_x da) x0 x1); [|discriminate].
  destruct (slice_mask (da_y da) y0 y1); [|discriminate].
  now intros [= <-].
Qed.

Lemma subset_layer (nodata : option Q) (da sub : data_array Stamp)
      (x0 x1 y0 y1 : Q) :
  monotonic stamp_leb (da_coord da) = true ->
  sel_xy da x0 x1 y0 y1 = Some sub ->
  exists out : data_array Z,
    subset stamp_leb month_of nodata da x0 x1 y0 y1 = Some out
    /\ da_coord out = bins month_of (da_coord sub)
    /\ forall (k : nat) (m : Z),
        nth_error (da_coord out) k = Some m ->
        exists L : layer,
          nth_error (da_values out) k = Some L
          /\ forall j i : nat,
              (j < List.length (da_y sub))%nat ->
              (i < List.length (da_x sub))%nat ->
              pixel_at L j i
              = mean_of (filter (not_nodata nodata)
                           (valid (pixel_stack (group month_of sub m) j i))).
Proof.
  intros Hmono Hs. unfold subset. rewrite sel_xy_open_masked, Hs.
  cbn [option_map]. rewrite resample_mean_some
    by (cbn [open_masked da_coord]; now rewrite (sel_xy_coord _ _ _ _ _ _ Hs)).
  eexists. split; [reflexivity|].
  split; [reflexivity|].
  intros k m Hk. apply monthly_layers_layer in Hk.
  eexists. split; [exact Hk|]. intros j i Hj Hi.
  cbn [open_masked da_y da_x].
  rewrite pixel_at_mean_layers by assumption.
  unfold open_masked. destruct sub as [c y x vals].
  cbn [da_coord da_y da_x da_values].
  rewrite group_map, pixel_stack_map by apply mask_nodata_none.
  now rewrite mean_skipna_valid, valid_mask_nodata.
Qed.

Lemma observations_none (l : list pixel) :
  (forall px, In px l -> observed px = false) -> observations l = [].
Proof.
  unfold observations. induction l as [|[q|] l IH]; intros H.
  - reflexivity.
  - cbn [valid filter]. pose proof (H (Some q) (or_introl eq_refl)) as Hq.
    cbn [observed] in Hq. rewrite Hq. apply IH.
    intros px Hpx. apply H. now right.
  - cbn [valid]. apply IH. intros px Hpx. apply H. now right.
Qed.

Lemma map_constant {B C : Type} (f : B -> C) (c : C) (l : list B) :
  (forall a, In a l -> f a = c) -> map f l = repeat c (List.length l).
Proof.
  induction l as [|a l IH]; intros H; [reflexivity|].
  cbn [map List.length repeat]. rewrite (H a) by now left.
  f_equal. apply IH. intros b Hb. apply H. now right.
Qed.

Lemma map_seq_constant {C : Type} (f : nat -> C) (c : C) (n : nat) :
  (forall i, (i < n)%nat -> f i = c) -> map f (seq 0 n) = repeat c n.
Proof.
  intros H. transitivity (repeat c (List.length (seq 0 n))).
  - apply map_constant. intros i Hi. apply in_seq in Hi. apply H. lia.
  - now rewrite length_seq.
Qed.

(** C4 (amended). On a raster whose time axis is in order, in the
    low-resolution workflow every pixel of a monthly layer is the mean of
    the observations of that pixel in the month: the values present other
    than zero; zeros are left out, not averaged in. In the full-resolution
    workflow no mask of zeros is applied: the values left out are those
    equal to the no-data value the raster declares (none when it declares
    none); when that value is zero they are the zeros. *)
Theorem monthly_mean_excludes_no_data :
  (forall da : data_array Stamp,
      monotonic stamp_leb (da_coord da) = true ->
      exists out : data_array Z,
        mosaic_mean stamp_leb month_of da = Some out
        /\ forall (k : nat) (m : Z),
            nth_error (da_coord out) k = Some m ->
            exists L : layer,
              nth_error (da_values out) k = Some L
              /\ forall j i : nat,
                  (j < List.length (da_y da))%nat ->
                  (i < List.length (da_x da))%nat ->
                  pixel_at L j i
                  = mean_of (observations
                               (pixel_stack (group month_of da m) j i)))
  /\ (forall (nodata : option Q) (da sub : data_array Stamp)
             (x0 x1 y0 y1 : Q),
        monotonic stamp_leb (da_coord da) = true ->
        sel_xy da x0 x1 y0 y1 = Some sub ->
        exists out : data_array Z,
          subset stamp_leb month_of nodata da x0 x1 y0 y1 = Some out
          /\ forall (k : nat) (m : Z),
              nth_error (da_coord out) k = Some m ->
              exists L : layer,
                nth_error (da_values out) k = Some L
                /\ forall j i : nat,
                    (j < List.length (da_y sub))%nat ->
                    (i < List.length (da_x sub))%nat ->
                    pixel_at L j i
                    = mean_of
                        (filter (not_nodata nodata)
                           (valid (pixel_stack (group month_of sub m) j i))))
  /\ (forall l : list pixel,
        filter (not_nodata (Some 0)) (valid l) = observations l).
Proof.
  split; [|split; [|reflexivity]].
  - intros da Hmono. unfold mosaic_mean.
    rewrite resample_mean_some by exact Hmono.
    eexists. split; [reflexivity|]. intros k m. apply mosaic_mean_layer.
  - intros nodata da sub x0 x1 y0 y1 Hmono Hs.
    destruct (subset_layer nodata da sub x0 x1 y0 y1 Hmono Hs)
      as (out & Ho & _ & H).
    exists out. split; [exact Ho | exact H].
Qed.

(** C6. On a raster whose time axis is in order the monthly mean is
    computed, and in it a month in which no pixel of any layer holds an
    observation (the months without a timestamp among them) has a layer
    that is missing everywhere; every month from the earliest to the latest
    timestamp has its layer. *)
Theorem empty_period_all_missing (da : data_array Stamp) (m : Z) :
  monotonic stamp_leb (da_coord da) = true ->
  exists out : data_array Z,
    mosaic_mean stamp_leb month_of da = Some out
    /\ (forall (k : nat),
          nth_error (da_coord out) k = Some m ->
          (forall L : layer, In L (group month_of da m) ->
             forall j i : nat,
               (j < List.length (da_y da))%nat ->
               (i < List.length (da_x da))%nat ->
               observed (pixel_at L j i) = false) ->
          nth_error (da_values out) k
          = Some (all_missing (List.length (da_y da))
                              (List.length (da_x da))))
    /\ (forall t1 t2 : Stamp,
          In t1 (da_coord da) -> In t2 (da_coord da) ->
          (month_of t1 <= m <= month_of t2)%Z ->
          exists k : nat, nth_error (da_coord out) k = Some m).
Proof.
  intros Hmono. unfold mosaic_mean.
  rewrite resample_mean_some by exact Hmono.
  eexists. split; [reflexivity|]. split.
  - intros k Hk Hnone.
    apply monthly_layers_layer in Hk. rewrite Hk. f_equal.
    cbn [where_nonzero da_y da_x]. unfold mean_layers, all_missing.
    apply map_seq_constant. intros j Hj.
    apply map_seq_constant. intros i Hi.
    unfold where_nonzero. destruct da as [c y x vals].
    cbn [da_coord da_y da_x da_values] in *.
    rewrite group_map, pixel_stack_map by reflexivity.
    rewrite mean_skipna_valid, valid_mask_zero, observations_none;
      [reflexivity|].
    intros px Hpx. unfold pixel_stack in Hpx.
    apply in_map_iff in Hpx as (L & <- & HL).
    apply (Hnone L HL); assumption.
  - intros t1 t2 H1 H2 Hm. apply In_nth_error.
    unfold monthly_layers. cbn [da_coord where_nonzero].
    apply (bins_between (da_coord da) t1 t2 m H1 H2 Hm).
Qed.

(** On a time axis that steps back there is no monthly mean. *)
Lemma unordered_axis_raises (da : data_array Stamp) :
  monotonic stamp_leb (da_coord da) = false ->
  mosaic_mean stamp_leb month_of da = None.
Proof. unfold mosaic_mean, resample_mean. cbn [where_nonzero da_coord]. now intros ->. Qed.
End Resample.

(** In February 2020 [one_pixel] has no timestamp, in March only a pixel
    without data. *)
Lemma one_pixel_march :
  forall L : layer, In L (group month_of_number one_pixel 24243) ->
  forall j i : nat,
    (j < List.length (da_y one_pixel))%nat ->
    (i < List.length (da_x one_pixel))%nat ->
    observed (pixel_at L j i) = false.
Proof.
  intros L [<-|[]] j i Hj Hi. cbn in Hj, Hi.
  destruct j; [|lia]. destruct i; [|lia]. reflexivity.
Qed.

Lemma empty_period_all_missing_witness :
  exists out : data_array Z,
    mosaic_mean Z.leb month_of_number one_pixel = Some out
    /\ (forall (k : nat),
          nth_error (da_coord out) k = Some 24243%Z ->
          (forall L : layer, In L (group month_of_number one_pixel 24243) ->
             forall j i : nat,
               (j < List.length (da_y one_pixel))%nat ->
               (i < List.length (da_x one_pixel))%nat ->
               observed (pixel_at L j i) = false) ->
          nth_error (da_values out) k
          = Some (all_missing (List.length (da_y one_pixel))
                              (List.length (da_x one_pixel))))
    /\ (forall t1 t2 : Z,
          In t1 (da_coord one_pixel) -> In t2 (da_coord one_pixel) ->
          (month_of_number t1 <= 24243 <= month_of_number t2)%Z ->
          exists k : nat, nth_error (da_coord out) k = Some 24243%Z).
Proof.
  apply (empty_period_all_missing Z.leb month_of_number one_pixel 24243).
  reflexivity.
Defined.

Example one_pixel_mosaic_mean :
  option_map da_coord (mosaic_mean Z.leb month_of_number one_pixel)
  = Some [24241; 24242; 24243]%Z
  /\ option_map da_values (mosaic_mean Z.leb month_of_number one_pixel)
     = Some [[[Some (6 # 2)]]; [[None]]; [[None]]].
Proof. split; reflexivity. Qed.

(** The timestamps 2 March, 1 January, 15 January, in that order. *)
Example unordered_axis_example :
  mosaic_mean Z.leb month_of_number
              (DataArray [20200302; 20200101; 20200115]%Z [0] [0]
                         [[[Some 1]]; [[Some 2]]; [[Some 3]]])
  = None.
Proof. reflexivity. Qed.

Lemma monthly_mean_excludes_no_data_witness :
  exists out : data_array Z,
    mosaic_mean Z.leb month_of_number one_pixel = Some out
    /\ forall (k : nat) (m : Z),
        nth_error (da_coord out) k = Some m ->
        exists L : layer,
          nth_error (da_values out) k = Some L
          /\ forall j i : nat,
              (j < List.length (da_y one_pixel))%nat ->
              (i < List.length (da_x one_pixel))%nat ->
              pixel_at L j i
              = mean_of (observations
                           (pixel_stack (group month_of_number one_pixel m)
                                        j i)).
Proof.
  apply (proj1 (monthly_mean_excludes_no_data Z.leb month_of_number) one_pixel).
  reflexivity.
Defined.

(** The full-resolution workflow on a raster that declares no no-data
    value: the zero of January is averaged in (the mean is 2, the mean of
    the observations is 3), and March is zero, not missing. *)
Lemma full_resolution_averages_zero :
  option_map (fun out => map (fun L => pixel_at L 0 0) (da_values out))
             (subset Z.leb month_of_number None one_pixel 0 0 0 0)
  = Some [Some (6 # 3); None; Some 0]
  /\ mean_of (observations
                (pixel_stack (group month_of_number one_pixel 24241) 0 0))
     = Some (6 # 2)
  /\ ~ pixel_eq (Some (6 # 3)) (Some (6 # 2))
  /\ mean_of (observations
                (pixel_stack (group month_of_number one_pixel 24243) 0 0))
     = None.
Proof.
  split; [reflexivity|]. split; [reflexivity|]. split; [|reflexivity].
  cbn. intros H. discriminate H.
Qed.

End AggregationFacts.

(** ** Region analysis *)

Module RegionFacts.

Import Aggregation Region.
Local Open Scope Q_scope.

(** *** Selection by a mask *)

Lemma select_filter {A : Type} (h : A -> bool) (l : list A) :
  select (map h l) l = filter h l.
Proof.
  induction l as [|a l IH]; [reflexivity|].
  cbn [map select filter]. destruct (h a); now rewrite IH.
Qed.

Lemma select_combine {A B : Type} (k : list bool) (a : list A) (b : list B) :
  combine (select k a) (select k b) = select k (combine a b).
Proof.
  revert a b. induction k as [|k0 k IH]; intros [|a0 a] [|b0 b];
    try reflexivity.
  - cbn [select combine]. now destruct (if k0 then _ else _).
  - cbn [select combine]. destruct k0; cbn [combine]; now rewrite IH.
Qed.

Lemma select_snd_filter {A B : Type} (h : B -> bool) (a : list A) (b : list B) :
  select (map h b) (combine a b) = filter (fun p => h (snd p)) (combine a b).
Proof.
  revert a. induction b as [|b0 b IH]; intros [|a0 a]; try reflexivity.
  cbn [map combine select filter snd]. destruct (h b0); now rewrite IH.
Qed.

Lemma combine_map_snd {A B C : Type} (f : B -> C) (a : list A) (b : list B) :
  combine a (map f b) = map (fun p => (fst p, f (snd p))) (combine a b).
Proof.
  revert b. induction a as [|a0 a IH]; intros [|b0 b]; try reflexivity.
  cbn [map combine fst snd]. now rewrite IH.
Qed.

Lemma select_none {A : Type} (n : nat) (l : list A) :
  select (repeat false n) l = [].
Proof.
  revert l. induction n as [|n IH]; intros [|a l]; try reflexivity.
  cbn [repeat select]. apply IH.
Qed.

Lemma select_in {A : Type} (k : list bool) (l : list A) (a : A) :
  In a (select k l) -> In a l.
Proof.
  revert l. induction k as [|k0 k IH]; intros [|a0 l]; try contradiction.
  cbn [select]. destruct k0.
  - intros [->|H]; [now left | right; now apply IH].
  - intros H. right. now apply IH.
Qed.

Lemma select_length {A B : Type} (k : list bool) (a : list A) (b : list B) :
  List.length a = List.length b ->
  List.length (select k a) = List.length (select k b).
Proof.
  revert a b. induction k as [|k0 k IH]; intros [|a0 a] [|b0 b] H;
    try reflexivity; try discriminate H.
  injection H as H. cbn [select].
  destruct k0; cbn [List.length]; now rewrite (IH a b H).
Qed.

(** Dropping entries that contribute nothing does not change a
    concatenation. *)
Lemma flat_map_select {A B : Type} (g : A -> list B) (d : A)
      (k : list bool) (l : list A) :
  List.length k = List.length l ->
  (forall j, (j < List.length l)%nat -> nth j k true = false ->
             g (nth j l d) = []) ->
  flat_map g (select k l) = flat_map g l.
Proof.
  revert l. induction k as [|k0 k IH]; intros [|a l] Hlen H;
    try reflexivity; try discriminate Hlen.
  injection Hlen as Hlen. cbn [select flat_map].
  assert (flat_map g (select k l) = flat_map g l) as Hrec.
  { apply IH; [exact Hlen|]. intros j Hj Hk.
    apply (H (S j)); [cbn; lia | exact Hk]. }
  destruct k0.
  - cbn [flat_map]. now rewrite Hrec.
  - assert (g a = []) as Ha
        by (apply (H 0%nat); [cbn [List.length]; lia | reflexivity]).
    now rewrite Hrec, Ha.
Qed.

Lemma flat_map_ext_in {A B : Type} (f g : A -> list B) (l : list A) :
  (forall a, In a l -> f a = g a) -> flat_map f l = flat_map g l.
Proof.
  induction l as [|a l IH]; intros H; [reflexivity|].
  cbn [flat_map]. rewrite (H a) by now left.
  f_equal. apply IH. intros b Hb. apply H. now right.
Qed.

Lemma existsb_none {A : Type} (f : A -> bool) (l : list A) (a : A) :
  existsb f l = false -> In a l -> f a = false.
Proof.
  intros H Ha. destruct (f a) eqn:E; [|reflexivity].
  rewrite <- H. symmetry. apply existsb_exists. now exists a.
Qed.

Lemma existsb_concat {A : Type} (f : A -> bool) (L : list (list A)) :
  existsb f (concat L) = existsb (existsb f) L.
Proof.
  induction L as [|row L IH]; [reflexivity|].
  cbn [concat existsb]. now rewrite existsb_app, IH.
Qed.

(** *** Observations of rows and layers *)

Lemma valid_app (l m : list pixel) : valid (l ++ m) = valid l ++ valid m.
Proof.
  induction l as [|[q|] l IH]; cbn [app valid]; [reflexivity| |exact IH].
  now rewrite IH.
Qed.

Lemma observations_app (l m : list pixel) :
  observations (l ++ m) = observations l ++ observations m.
Proof. unfold observations. now rewrite valid_app, filter_app. Qed.

Lemma observations_flat (l : list pixel) :
  observations l = flat_map (fun px => observations [px]) l.
Proof.
  induction l as [|px l IH]; [reflexivity|].
  change (px :: l) with ([px] ++ l) at 1.
  rewrite observations_app, IH. reflexivity.
Qed.

Lemma observations_concat (L : layer) :
  observations (concat L) = flat_map observations L.
Proof.
  induction L as [|row L IH]; [reflexivity|].
  cbn [concat flat_map]. now rewrite observations_app, IH.
Qed.

Lemma valid_concat_masked (f : list pixel -> list pixel) (L : layer) :
  valid (concat (map (fun row => map mask_zero (f row)) L))
  = flat_map (fun row => observations (f row)) L.
Proof.
  induction L as [|row L IH]; [reflexivity|].
  cbn [map concat flat_map].
  now rewrite valid_app, AggregationFacts.valid_mask_zero, IH.
Qed.

Lemma zero_no_observation (px : pixel) :
  nonzero px = false -> observations [px] = [].
Proof.
  destruct px as [q|]; [|discriminate].
  unfold observations, nonzero, is_obs. cbn [valid filter].
  now intros ->.
Qed.

Lemma cond_at_nth (L : layer) (j i : nat) :
  (i < List.length (nth j L []))%nat ->
  cond_at L j i = nonzero (nth i (nth j L []) (Some 0)).
Proof.
  intros H. unfold cond_at.
  destruct (nth_error (nth j L []) i) as [px|] eqn:E.
  - now rewrite (nth_error_nth _ _ (Some 0) E).
  - apply nth_error_None in E. lia.
Qed.

Section Dropping.
Context {T : Type}.
Variable sub : data_array T.
Hypothesis shaped : well_shaped sub.

Let ny := List.length (da_y sub).
Let nx := List.length (da_x sub).
Let keep_y :=
  map (fun j => existsb (fun L => existsb (cond_at L j) (seq 0 nx))
                        (da_values sub))
      (seq 0 ny).
Let keep_x :=
  map (fun i => existsb (fun L => existsb (fun j => cond_at L j i) (seq 0 ny))
                        (da_values sub))
      (seq 0 nx).

Lemma shaped_rows (L : layer) :
  In L (da_values sub) -> List.length L = ny.
Proof.
  intros H. unfold well_shaped in shaped. rewrite Forall_forall in shaped.
  now destruct (shaped L H).
Qed.

Lemma shaped_row (L : layer) (j : nat) :
  In L (da_values sub) -> (j < ny)%nat -> List.length (nth j L []) = nx.
Proof.
  intros H Hj. unfold well_shaped in shaped. rewrite Forall_forall in shaped.
  destruct (shaped L H) as [Hl Hr]. rewrite Forall_forall in Hr.
  apply Hr. apply nth_In. unfold ny in Hj. lia.
Qed.

(** A dropped column holds no observation in any row. *)
Lemma dropped_column (L : layer) (j i : nat) :
  In L (da_values sub) -> (j < ny)%nat -> (i < nx)%nat ->
  nth i keep_x true = false ->
  observations [nth i (nth j L []) (Some 0)] = [].
Proof.
  intros HL Hj Hi Hk. unfold keep_x in Hk.
  rewrite AggregationFacts.nth_map_seq in Hk by exact Hi.
  apply (existsb_none _ _ L) in Hk; [|exact HL]. cbv beta in Hk.
  apply (existsb_none _ _ j) in Hk; [|apply in_seq; lia]. cbv beta in Hk.
  rewrite cond_at_nth in Hk by (rewrite shaped_row; assumption).
  now apply zero_no_observation.
Qed.

(** A dropped row holds no observation. *)
Lemma dropped_row (L : layer) (j : nat) :
  In L (da_values sub) -> (j < ny)%nat ->
  nth j keep_y true = false ->
  observations (nth j L []) = [].
Proof.
  intros HL Hj Hk. unfold keep_y in Hk.
  rewrite AggregationFacts.nth_map_seq in Hk by exact Hj.
  apply (existsb_none _ _ L) in Hk; [|exact HL]. cbv beta in Hk.
  pose proof (shaped_row L j HL Hj) as Hlen.
  rewrite observations_flat.
  rewrite <- (flat_map_select _ (Some 0) (repeat false nx)).
  - now rewrite select_none.
  - now rewrite repeat_length.
  - intros i Hi _. rewrite Hlen in Hi.
    apply (existsb_none _ _ i) in Hk; [|apply in_seq; lia].
    cbv beta in Hk.
    rewrite cond_at_nth in Hk by (rewrite Hlen; exact Hi).
    now apply zero_no_observation.
Qed.

(** The observations of a layer after the drop are those before it. *)
Lemma dropped_layer (L : layer) :
  In L (da_values sub) ->
  valid (concat (map (fun row => map mask_zero (select keep_x row))
                     (select keep_y L)))
  = observations (concat L).
Proof.
  intros HL. rewrite valid_concat_masked, observations_concat.
  pose proof (shaped_rows L HL) as Hrows.
  rewrite (flat_map_ext_in _ observations).
  - apply (flat_map_select observations []).
    + unfold keep_y. now rewrite length_map, length_seq.
    + intros j Hj Hk. apply dropped_row; [exact HL | lia | exact Hk].
  - intros row Hrow. apply select_in in Hrow.
    destruct (In_nth _ _ [] Hrow) as (j & Hj & <-).
    rewrite Hrows in Hj.
    rewrite (observations_flat (select keep_x _)), (observations_flat (nth j L [])).
    apply (flat_map_select _ (Some 0)).
    + unfold keep_x. rewrite length_map, length_seq.
      symmetry. now apply shaped_row.
    + intros i Hi Hk. rewrite shaped_row in Hi by assumption.
      now apply dropped_column.
Qed.

(** The series has an entry for each label at which some pixel differs
    from zero, the mean of the observations at that label. *)
Lemma mean_trend_kept :
  mean_trend sub
  = map (fun p => (fst p, mean_of (observations (concat (snd p)))))
        (filter (fun p => existsb nonzero (concat (snd p)))
                (combine (da_coord sub) (da_values sub))).
Proof.
  unfold mean_trend, mean_xy, where_nonzero_drop.
  cbn [da_coord da_values]. fold ny nx. fold keep_y keep_x.
  rewrite map_map, combine_map_snd, select_combine, select_snd_filter.
  rewrite (filter_ext _ (fun p => existsb nonzero (concat (snd p))))
    by (intros p; now rewrite existsb_concat).
  apply map_ext_in. intros [t L] Hp. cbn [fst snd]. f_equal.
  apply filter_In in Hp as [Hp _]. apply in_combine_r in Hp.
  rewrite AggregationFacts.mean_skipna_valid. f_equal.
  now apply dropped_layer.
Qed.
End Dropping.

(** *** The slice over the bounds *)

Lemma sel_xy_well_shaped {T : Type} (da sub : data_array T) (x0 x1 y0 y1 : Q) :
  well_shaped da -> sel_xy da x0 x1 y0 y1 = Some sub -> well_shaped sub.
Proof.
  unfold well_shaped, sel_xy. intros Hw H.
  destruct (slice_mask (da_x da) x0 x1) as [kx|]; [|discriminate].
  destruct (slice_mask (da_y da) y0 y1) as [ky|]; [|discriminate].
  injection H as <-. cbn [da_values da_y da_x].
  rewrite Forall_forall in *. intros L' HL'.
  apply in_map_iff in HL' as (L & <- & HL).
  destruct (Hw L HL) as [Hrows Hcols]. split.
  - rewrite length_map. now apply select_length.
  - rewrite Forall_forall in *. intros row' Hrow'.
    apply in_map_iff in Hrow' as (row & <- & Hrow).
    apply select_in in Hrow. apply select_length. now apply Hcols.
Qed.

Lemma daT_north_up {T : Type} (da : data_array T) (b : bounds) :
  north_up da ->
  daT da b
  = Some (DataArray
            (da_coord da)
            (filter (between (miny b) (maxy b)) (da_y da))
            (filter (between (minx b) (maxx b)) (da_x da))
            (map (fun L =>
                    map (select (map (between (minx b) (maxx b)) (da_x da)))
                        (select (map (between (miny b) (maxy b)) (da_y da)) L))
                 (da_values da))).
Proof.
  intros (Hx & Hy1 & Hy2). unfold daT, sel_xy, slice_mask.
  rewrite Hx, Hy1, Hy2. now rewrite !select_filter.
Qed.

(** C7 (amended). On a north-up grid the extraction keeps the labels of
    [x] and [y] that lie within the bounds of the region, and the pixels at
    those labels, whatever the shape of the region inside its bounds. The
    series derived from the slice has one entry for each timestamp at which
    some pixel of the slice differs from zero: the mean of the values
    present other than zero; a timestamp at which the slice holds only
    zeros has no entry. *)
Theorem bbox_slice_and_trend {T : Type} (da : data_array T) (b : bounds) :
  north_up da -> well_shaped da ->
  exists sub : data_array T,
    daT da b = Some sub
    /\ da_coord sub = da_coord da
    /\ da_x sub = filter (between (minx b) (maxx b)) (da_x da)
    /\ da_y sub = filter (between (miny b) (maxy b)) (da_y da)
    /\ da_values sub
       = map (fun L =>
                map (select (map (between (minx b) (maxx b)) (da_x da)))
                    (select (map (between (miny b) (maxy b)) (da_y da)) L))
             (da_values da)
    /\ mean_trend sub
       = map (fun p => (fst p, mean_of (observations (concat (snd p)))))
             (filter (fun p => existsb nonzero (concat (snd p)))
                     (combine (da_coord sub) (da_values sub))).
Proof.
  intros Hn Hw. pose proof (daT_north_up da b Hn) as Hd.
  eexists. split; [exact Hd|]. repeat (split; [reflexivity|]).
  apply mean_trend_kept.
  apply (sel_xy_well_shaped da _ _ _ _ _ Hw Hd).
Qed.

Lemma two_by_two_north_up : north_up two_by_two.
Proof. repeat split. Qed.

Lemma two_by_two_well_shaped : well_shaped two_by_two.
Proof. repeat constructor. Qed.

Lemma bbox_slice_and_trend_witness :
  exists sub : data_array Z,
    daT two_by_two triangle_bounds = Some sub
    /\ da_coord sub = da_coord two_by_two
    /\ da_x sub
       = filter (between (minx triangle_bounds) (maxx triangle_bounds))
                (da_x two_by_two)
    /\ da_y sub
       = filter (between (miny triangle_bounds) (maxy triangle_bounds))
                (da_y two_by_two)
    /\ da_values sub
       = map (fun L =>
                map (select (map (between (minx triangle_bounds)
                                          (maxx triangle_bounds))
                                 (da_x two_by_two)))
                    (select (map (between (miny triangle_bounds)
                                          (maxy triangle_bounds))
                                 (da_y two_by_two)) L))
             (da_values two_by_two)
    /\ mean_trend sub
       = map (fun p => (fst p, mean_of (observations (concat (snd p)))))
             (filter (fun p => existsb nonzero (concat (snd p)))
                     (combine (da_coord sub) (da_values sub))).
Proof.
  apply (bbox_slice_and_trend two_by_two triangle_bounds).
  - exact two_by_two_north_up.
  - exact two_by_two_well_shaped.
Defined.

(** The slice over the bounds of the triangle holds the pixel at [(1, 1)],
    which the triangle does not cover: on 25 January it is the only
    observation, and the series has its value. *)
Example pixel_outside_polygon_included :
  option_map da_values (daT two_by_two triangle_bounds)
  = Some (da_values two_by_two)
  /\ option_map (fun sub => nth_error (mean_trend sub) 1)
                (daT two_by_two triangle_bounds)
     = Some (Some (20200125%Z, Some 5)).
Proof. split; reflexivity. Qed.

(** Three timestamps, two entries: 13 January, without data over the
    region, has no scalar. And on a grid whose [y] ascends the slice has no
    row at all, though the bounds cover the whole grid. *)
Lemma timestamp_without_data_dropped :
  List.length (da_coord two_by_two) = 3%nat
  /\ option_map mean_trend (daT two_by_two triangle_bounds)
     = Some [(20200101%Z, Some (6 # 3)); (20200125%Z, Some 5)]
  /\ option_map da_y (daT two_by_two_south_up triangle_bounds) = Some []
  /\ option_map mean_trend (daT two_by_two_south_up triangle_bounds)
     = Some [].
Proof. repeat split; reflexivity. Qed.

End RegionFacts.

(** * Further properties of the cells *)

(** ** Slices and fields *)

Module FieldFacts.

Import Catalog SliceFacts.

Ltac norm_cases :=
  unfold norm_index; cbv zeta;
  repeat match goal with
         | |- context [Z.ltb ?a ?b] =>
             lazymatch a with
             | context [Z.ltb] => fail
             | _ => destruct (Z.ltb_spec a b)
             end
         end.

Lemma norm_index_range (n i : Z) : 0 <= n -> 0 <= norm_index n i <= n.
Proof. intros Hn. norm_cases; lia. Qed.

(** The length of a slice, whatever the bounds. *)
Lemma py_slice_length {A : Type} (lo hi : option Z) (s : list A) :
  let n := Z.of_nat (List.length s) in
  let a := match lo with Some i => norm_index n i | None => 0 end in
  let b := match hi with Some i => norm_index n i | None => n end in
  List.length (py_slice lo hi s) = Z.to_nat (b - a).
Proof.
  intros n a b. unfold py_slice. fold n. fold a. fold b.
  rewrite length_firstn, length_skipn.
  assert (0 <= a <= n) as Ha
      by (subst a; destruct lo; [apply norm_index_range|]; lia).
  assert (0 <= b <= n) as Hb
      by (subst b; destruct hi; [apply norm_index_range|]; lia).
  lia.
Qed.

(** A slice taken inside the last [k] elements is a slice counted from the
    end. *)
Lemma slice_within_last {A : Type} (k a b : nat) (s : list A) :
  (a <= b)%nat -> (b < k)%nat -> (k <= List.length s)%nat ->
  py_slice (Some (Z.of_nat a)) (Some (Z.of_nat b))
           (py_slice (Some (- Z.of_nat k)) None s)
  = py_slice (Some (Z.of_nat a - Z.of_nat k)) (Some (Z.of_nat b - Z.of_nat k)) s.
Proof.
  intros Hab Hbk Hk.
  rewrite slice_last by lia.
  rewrite slice_inside by (rewrite length_skipn; lia).
  rewrite skipn_skipn.
  unfold py_slice. rewrite !norm_index_neg by lia.
  f_equal; [lia | f_equal; lia].
Qed.

Lemma date_of_file (key : pystr) :
  (36 <= List.length key)%nat -> date_of (file_of key) = sort_key key.
Proof.
  intros H. unfold date_of, file_of, sort_key.
  apply (slice_within_last 36 4 12 key); lia.
Qed.

(** X3. The extraction of the fields never fails and cuts short on a short
    key: the file name has the last 36 characters or the whole key, and the
    satellite, the date and the direction have what is left of the file
    name at their offsets, up to 3, 8 and 3 characters; from 22 characters
    on they have their full width. *)
Theorem field_widths (key : pystr) :
  List.length (file_of key) = Nat.min 36 (List.length key)
  /\ List.length (satellite_of (file_of key))
     = Nat.min 3 (List.length (file_of key))
  /\ List.length (date_of (file_of key))
     = Nat.min 8 (List.length (file_of key) - 4)
  /\ List.length (direction_of (file_of key))
     = Nat.min 3 (List.length (file_of key) - 19)
  /\ ((22 <= List.length key)%nat ->
      List.length (satellite_of (file_of key)) = 3%nat
      /\ List.length (date_of (file_of key)) = 8%nat
      /\ List.length (direction_of (file_of key)) = 3%nat).
Proof.
  assert (List.length (file_of key) = Nat.min 36 (List.length key)) as Hf.
  { unfold file_of. rewrite py_slice_length. norm_cases; lia. }
  assert (forall x : pystr,
             List.length (satellite_of x) = Nat.min 3 (List.length x)
             /\ List.length (date_of x) = Nat.min 8 (List.length x - 4)
             /\ List.length (direction_of x) = Nat.min 3 (List.length x - 19))
    as Hx.
  { intros x. unfold satellite_of, date_of, direction_of.
    rewrite !py_slice_length. repeat split; norm_cases; lia. }
  destruct (Hx (file_of key)) as (H1 & H2 & H3).
  repeat split; try assumption; lia.
Qed.

Lemma field_widths_witness :
  List.length (satellite_of (file_of key_20200106)) = 3%nat
  /\ List.length (date_of (file_of key_20200106)) = 8%nat
  /\ List.length (direction_of (file_of key_20200106)) = 3%nat.
Proof.
  apply (proj2 (proj2 (proj2 (proj2 (field_widths key_20200106))))).
  vm_compute. lia.
Defined.

(** A key of ten characters: the file name is the key, the date has what
    follows the fourth character, the direction is empty. *)
Example fields_of_short_key :
  file_of (str "S1B_202001") = str "S1B_202001"
  /\ date_of (file_of (str "S1B_202001")) = str "202001"
  /\ direction_of (file_of (str "S1B_202001")) = [].
Proof. repeat split; reflexivity. Qed.

End FieldFacts.

(** ** The sort on arbitrary keys *)

Module SortedKeysFacts.

Import Catalog OrderFacts.

Lemma sorted_is_fixed {A : Type} (key : A -> pystr) (l : list A) :
  Sorted (key_le key) l -> sort_by key l = l.
Proof.
  intros H. apply (SortFacts.stable_sorted_unique key).
  - apply SortFacts.sort_by_sorted.
  - exact H.
  - intros k. apply SortFacts.sort_by_with_key.
Qed.

(** X1. On any list of keys, whatever their length or content, the sort
    returns the same keys, each as often as listed, in non-decreasing order
    of the substring [[-32:-24]] as strings; sorting again changes
    nothing. *)
Theorem sort_keys_any (keys : list pystr) :
  Permutation keys (sort_keys keys)
  /\ List.length (sort_keys keys) = List.length keys
  /\ StronglySorted (key_le sort_key) (sort_keys keys)
  /\ sort_keys (sort_keys keys) = sort_keys keys.
Proof.
  unfold sort_keys.
  pose proof (SortFacts.sort_by_perm sort_key keys) as Hp.
  pose proof (SortFacts.sort_by_sorted sort_key keys) as Hs.
  split; [exact Hp|]. split; [symmetry; now apply Permutation_length|].
  split.
  - apply Sorted_StronglySorted; [|exact Hs].
    intros a b c. apply SortFacts.key_le_trans.
  - now apply sorted_is_fixed.
Qed.

Lemma sorted_map_key (l : list pystr) :
  Sorted (key_le sort_key) l -> Sorted str_le (map sort_key l).
Proof.
  induction 1 as [|x l Hs IH Hh]; cbn [map]; constructor; [exact IH|].
  destruct Hh; cbn [map]; now constructor.
Qed.

(** X2. When every key has at least 36 characters, the column of dates
    taken from the file names of the sorted keys is the column of their
    sort keys, and it is in non-decreasing order. *)
Theorem dates_column_sorted (keys : list pystr) :
  Forall (fun key => (36 <= List.length key)%nat) keys ->
  dates (files (sort_keys keys)) = map sort_key (sort_keys keys)
  /\ Sorted str_le (dates (files (sort_keys keys))).
Proof.
  intros H.
  assert (dates (files (sort_keys keys)) = map sort_key (sort_keys keys)) as E.
  { unfold dates, files. rewrite map_map. apply map_ext_in.
    intros k Hk. apply FieldFacts.date_of_file.
    rewrite Forall_forall in H. apply H.
    apply (Permutation_in k (Permutation_sym
                               (SortFacts.sort_by_perm sort_key keys)) Hk). }
  split; [exact E|]. rewrite E.
  apply sorted_map_key, SortFacts.sort_by_sorted.
Qed.

Lemma listed_keys_long :
  Forall (fun key => (36 <= List.length key)%nat) listed_keys.
Proof. repeat constructor; vm_compute; lia. Qed.

Lemma dates_column_sorted_witness :
  dates (files (sort_keys listed_keys)) = map sort_key (sort_keys listed_keys)
  /\ Sorted str_le (dates (files (sort_keys listed_keys))).
Proof. apply (dates_column_sorted listed_keys). exact listed_keys_long. Defined.

(** On short keys the column of dates need not be in order. *)
Example dates_of_short_keys :
  dates (files (sort_keys [str "0000900000001"; str "0000100000002"]))
  = [str "90000000"; str "10000000"].
Proof. reflexivity. Qed.

(** X6. The cell that opens the first image raises exactly when the search
    found nothing; otherwise its url is ["s3://"] followed by a key whose
    sort key is the least of all. *)
Theorem first_url_earliest (keys : list pystr) :
  (Pipeline.first_url (sort_keys keys) = Pipeline.Raise Pipeline.IndexError
   <-> keys = [])
  /\ (keys <> [] ->
      exists k0 : pystr,
        Pipeline.first_url (sort_keys keys) = Pipeline.Ok (str "s3://" ++ k0)
        /\ In k0 keys
        /\ forall k : pystr, In k keys -> str_le (sort_key k0) (sort_key k)).
Proof.
  pose proof (SortFacts.sort_by_perm sort_key keys) as Hp.
  assert (StronglySorted (key_le sort_key) (sort_by sort_key keys)) as Hs.
  { apply Sorted_StronglySorted; [|apply SortFacts.sort_by_sorted].
    intros a b c. apply SortFacts.key_le_trans. }
  fold (sort_keys keys) in Hp, Hs.
  unfold Pipeline.first_url.
  destruct (sort_keys keys) as [|k0 rest] eqn:E.
  - apply Permutation_sym, Permutation_nil in Hp. subst keys.
    split; [split; reflexivity|]. intros H. now contradiction H.
  - cbn [map]. split.
    + split; [discriminate|]. intros ->. discriminate E.
    + intros _. exists k0. split; [reflexivity|]. split.
      * apply (Permutation_in k0 (Permutation_sym Hp)). now left.
      * intros k Hk. apply (Permutation_in k Hp) in Hk.
        inversion Hs as [|? ? _ Hall]; subst.
        destruct Hk as [<-|Hk]; [apply str_leb_refl|].
        rewrite Forall_forall in Hall. exact (Hall k Hk).
Qed.

Lemma first_url_earliest_witness :
  exists k0 : pystr,
    Pipeline.first_url (sort_keys listed_keys)
    = Pipeline.Ok (str "s3://" ++ k0)
    /\ In k0 listed_keys
    /\ forall k : pystr, In k listed_keys -> str_le (sort_key k0) (sort_key k).
Proof.
  apply (proj2 (first_url_earliest listed_keys)). discriminate.
Defined.

End SortedKeysFacts.

(** ** Paths *)

Module PathFacts.

Import Catalog Paths SliceFacts.

(** [(pre + t)[k:]] with [k] the length of [pre]. *)
Lemma slice_drop_prefix {A : Type} (k : nat) (pre t : list A) :
  List.length pre = k ->
  py_slice (Some (Z.of_nat k)) None (pre ++ t) = t.
Proof.
  intros Hk. unfold py_slice.
  rewrite norm_index_pos by (rewrite length_app; lia).
  rewrite Nat2Z.id, <- Hk, skipn_app, skipn_all, Nat.sub_diag.
  cbn [app skipn]. apply firstn_all2. rewrite length_app. lia.
Qed.

Lemma strip_scheme (key : pystr) :
  py_slice (Some 5) None (str "s3://" ++ key) = key.
Proof. apply (slice_drop_prefix 5 (str "s3://") key). reflexivity. Qed.

Lemma glob_pattern_value
      (zone : Z) (latLabel square year date polarization : pystr) :
  glob_pattern zone latLabel square year date polarization
  = str "sentinel-s1-rtc-indigo/tiles/RTC/1/IW/"
        ++ format_int zone ++ [slash] ++ latLabel ++ [slash]
        ++ square ++ [slash] ++ year ++ [slash] ++ date
        ++ str "/Gamma0_" ++ polarization ++ str ".tif".
Proof.
  unfold glob_pattern, s3Path.
  change (str "s3://sentinel-s1-rtc-indigo/tiles/RTC/1/IW/")
    with (str "s3://" ++ str "sentinel-s1-rtc-indigo/tiles/RTC/1/IW/").
  rewrite <- app_assoc. apply strip_scheme.
Qed.

(** X4. Dropping five characters removes exactly the scheme: the pattern
    handed to the search is the path without ["s3://"] for every choice of
    the parameters, and the paths of [s3Paths] lose the scheme they were
    given, so the keys come back. *)
Theorem scheme_round_trip :
  (forall (zone : Z) (latLabel square year date polarization : pystr),
      s3Path zone latLabel square year date polarization
      = str "s3://" ++ glob_pattern zone latLabel square year date polarization
      /\ glob_pattern zone latLabel square year date polarization
         = str "sentinel-s1-rtc-indigo/tiles/RTC/1/IW/"
               ++ format_int zone ++ [slash] ++ latLabel ++ [slash]
               ++ square ++ [slash] ++ year ++ [slash] ++ date
               ++ str "/Gamma0_" ++ polarization ++ str ".tif")
  /\ (forall keys : list pystr,
         map (py_slice (Some 5) None) (s3Paths keys) = keys).
Proof.
  split.
  - intros zone latLabel square year date polarization.
    pose proof (glob_pattern_value zone latLabel square year date
                                   polarization) as E.
    split; [|exact E]. rewrite E. unfold s3Path.
    change (str "s3://sentinel-s1-rtc-indigo/tiles/RTC/1/IW/")
      with (str "s3://" ++ str "sentinel-s1-rtc-indigo/tiles/RTC/1/IW/").
    now rewrite <- app_assoc.
  - intros keys. unfold s3Paths. rewrite map_map.
    rewrite <- (map_id keys) at 2. apply map_ext. exact strip_scheme.
Qed.

Example pattern_of_the_notebook :
  glob_pattern 12 (str "S") (str "YJ") (str "*") (str "*") (str "VV")
  = str "sentinel-s1-rtc-indigo/tiles/RTC/1/IW/12/S/YJ/*/*/Gamma0_VV.tif".
Proof. reflexivity. Qed.

(** X5. A key that fills the pattern with a year and a scene directory of
    the fixed widths, for a polarization of two characters, is parsed back:
    its file name is the scene directory with the asset, and satellite,
    date and direction are those of the directory; the sort key is the
    date. *)
Theorem layout_key_parses
        (zone : Z) (latLabel square year sat date tile dir pol : pystr) :
  List.length sat = 3%nat -> List.length date = 8%nat ->
  List.length tile = 5%nat -> List.length dir = 3%nat ->
  List.length pol = 2%nat ->
  let scene := sat ++ [underscore] ++ date ++ [underscore] ++ tile
                   ++ [underscore] ++ dir in
  let key := glob_pattern zone latLabel square year scene pol in
  file_of key = scene_file sat date tile dir (str "Gamma0_" ++ pol ++ str ".tif")
  /\ satellite_of (file_of key) = sat
  /\ date_of (file_of key) = date
  /\ direction_of (file_of key) = dir
  /\ sort_key key = date.
Proof.
  intros H1 H2 H3 H4 H5 scene key.
  assert (List.length (scene_file sat date tile dir
                                  (str "Gamma0_" ++ pol ++ str ".tif"))
          = 36%nat) as Hlen.
  { unfold scene_file. rewrite !length_app. cbn [List.length str].
    cbn. lia. }
  assert (key = (str "sentinel-s1-rtc-indigo/tiles/RTC/1/IW/"
                     ++ format_int zone ++ [slash] ++ latLabel ++ [slash]
                     ++ square ++ [slash] ++ year ++ [slash])
                  ++ scene_file sat date tile dir
                                (str "Gamma0_" ++ pol ++ str ".tif")) as Hk.
  { subst key. rewrite glob_pattern_value.
    subst scene. unfold scene_file.
    change (str "/Gamma0_") with ([slash] ++ str "Gamma0_").
    now rewrite <- !app_assoc. }
  assert (file_of key
          = scene_file sat date tile dir (str "Gamma0_" ++ pol ++ str ".tif"))
    as Hf by (rewrite Hk; now apply CatalogFacts.file_of_suffix).
  assert (date_of (file_of key) = date /\ satellite_of (file_of key) = sat
          /\ direction_of (file_of key) = dir) as (Hd & Hs & Hr).
  { rewrite Hf. clear Hf Hk Hlen key scene.
    do 3 (destruct sat as [|? sat]; [discriminate H1|]).
    destruct sat; [|discriminate H1].
    do 8 (destruct date as [|? date]; [discriminate H2|]).
    destruct date; [|discriminate H2].
    do 5 (destruct tile as [|? tile]; [discriminate H3|]).
    destruct tile; [|discriminate H3].
    do 3 (destruct dir as [|? dir]; [discriminate H4|]).
    destruct dir; [|discriminate H4].
    do 2 (destruct pol as [|? pol]; [discriminate H5|]).
    destruct pol; [|discriminate H5].
    repeat split; reflexivity. }
  repeat split; try assumption.
  rewrite <- FieldFacts.date_of_file; [exact Hd|].
  rewrite Hk, length_app, Hlen. lia.
Qed.

Lemma layout_key_parses_witness :
  let scene := str "S1B" ++ [underscore] ++ str "20200106" ++ [underscore]
                   ++ str "12SYJ" ++ [underscore] ++ str "ASC" in
  let key := glob_pattern 12 (str "S") (str "YJ") (str "2020") scene (str "VV") in
  file_of key = scene_file (str "S1B") (str "20200106") (str "12SYJ")
                           (str "ASC") (str "Gamma0_" ++ str "VV" ++ str ".tif")
  /\ satellite_of (file_of key) = str "S1B"
  /\ date_of (file_of key) = str "20200106"
  /\ direction_of (file_of key) = str "ASC"
  /\ sort_key key = str "20200106".
Proof.
  apply (layout_key_parses 12 (str "S") (str "YJ") (str "2020") (str "S1B")
                           (str "20200106") (str "12SYJ") (str "ASC")
                           (str "VV")); reflexivity.
Defined.

(** With a polarization of another width the offsets miss the fields. *)
Example longer_polarization_shifts_fields :
  date_of (file_of (glob_pattern 12 (str "S") (str "YJ") (str "2020")
                      (str "S1B_20200106_12SYJ_ASC") (str "VV+VH")))
  = str "00106_12".
Proof. reflexivity. Qed.

End PathFacts.

(** ** The manifest read back, and the time axis *)

Module ManifestFacts.

Import Catalog Mosaic OrderFacts.

Lemma strip_vsis3 (key : pystr) : py_slice (Some 7) None (vsis3 ++ key) = key.
Proof. apply (PathFacts.slice_drop_prefix 7 vsis3 key). reflexivity. Qed.

Lemma keys_of_manifest (keys : list pystr) :
  Forall no_newline keys ->
  map (py_slice (Some 7) None) (lines (write_manifest keys)) = keys.
Proof.
  intros H.
  rewrite MosaicFacts.write_manifest_concat, MosaicFacts.lines_manifest
    by exact H.
  rewrite map_map. rewrite <- (map_id keys) at 2.
  apply map_ext. exact strip_vsis3.
Qed.

(** X7. The manifest determines the keys: for keys without a newline,
    dropping the seven characters of the prefix from every line gives the
    keys back, in order; so two lists of such keys with the same manifest
    are equal. *)
Theorem manifest_round_trip (keys : list pystr) :
  Forall no_newline keys ->
  map (py_slice (Some 7) None) (lines (write_manifest keys)) = keys
  /\ forall keys' : list pystr,
      Forall no_newline keys' ->
      write_manifest keys' = write_manifest keys -> keys' = keys.
Proof.
  intros H. split; [now apply keys_of_manifest|].
  intros keys' H' E.
  rewrite <- (keys_of_manifest keys H), <- (keys_of_manifest keys' H').
  now rewrite E.
Qed.

Lemma manifest_round_trip_witness :
  map (py_slice (Some 7) None) (lines (write_manifest (sort_keys listed_keys)))
  = sort_keys listed_keys.
Proof.
  apply (proj1 (manifest_round_trip (sort_keys listed_keys)
                                    MosaicFacts.listed_keys_no_newline)).
Defined.

Section Axis.
Context {Stamp : Type}.
Variable to_datetime : pystr -> option Stamp.
Variable read_band : pystr -> layer.
Variables grid_y grid_x : list Q.

Lemma datetimes_fails (fs : list (option pystr)) :
  datetimes to_datetime fs = None
  <-> In None fs
      \/ exists x : pystr,
          In (Some x) fs
          /\ to_datetime (py_slice (Some 4) (Some 12) x) = None.
Proof.
  induction fs as [|[x|] fs IH]; cbn [datetimes].
  - split; [discriminate|]. intros [[]|(x & [] & _)].
  - fold (date_of x).
    destruct (to_datetime (date_of x)) as [d|] eqn:E.
    + destruct (datetimes to_datetime fs) as [ds|].
      * split; [discriminate|]. intros H. exfalso.
        assert (@None (list Stamp) = None) as Hn by reflexivity.
        destruct H as [[H|H]|(y & [H|H] & Hy)].
        -- discriminate H.
        -- apply (or_introl (B := exists y, In (Some y) fs
                                  /\ to_datetime (py_slice (Some 4) (Some 12) y)
                                     = None)) in H.
           apply IH in H. discriminate H.
        -- injection H as <-. unfold date_of in E. congruence.
        -- assert (Some ds = None) as Hc; [|discriminate Hc].
           apply IH. right. now exists y.
      * split; [|reflexivity]. intros _.
        destruct (proj1 IH eq_refl) as [H|(y & H & Hy)].
        -- left. now right.
        -- right. exists y. split; [now right | exact Hy].
    + split; [|reflexivity]. intros _. right. exists x.
      split; [now left | exact E].
  - split; [|reflexivity]. intros _. left. now left.
Qed.

Lemma datetimes_parsed (fs : list (option pystr)) (ts : list Stamp) :
  datetimes to_datetime fs = Some ts ->
  Forall2 (fun f t =>
             exists x : pystr,
               f = Some x
               /\ to_datetime (py_slice (Some 4) (Some 12) x) = Some t)
          fs ts.
Proof.
  revert ts. induction fs as [|[x|] fs IH]; intros ts; cbn [datetimes].
  - intros [= <-]. constructor.
  - fold (date_of x).
    destruct (to_datetime (date_of x)) as [d|] eqn:E; [|discriminate].
    destruct (datetimes to_datetime fs) as [ds|]; [|discriminate].
    intros [= <-]. constructor; [|now apply IH].
    exists x. now split.
  - discriminate.
Qed.

(** X8. The timestamps can be read exactly when every band has its
    description and the parser accepts characters [4:12] of each; then
    there is one timestamp per band, the one parsed from its description.
    On a mosaic as the builder leaves it, with no description yet, the
    relabelling raises. *)
Theorem datetimes_need_descriptions :
  (forall fs : list (option pystr),
      datetimes to_datetime fs = None
      <-> In None fs
          \/ exists x : pystr,
              In (Some x) fs
              /\ to_datetime (py_slice (Some 4) (Some 12) x) = None)
  /\ (forall (fs : list (option pystr)) (ts : list Stamp),
         datetimes to_datetime fs = Some ts ->
         List.length ts = List.length fs
         /\ Forall2 (fun f t =>
                       exists x : pystr,
                         f = Some x
                         /\ to_datetime (py_slice (Some 4) (Some 12) x)
                            = Some t)
                    fs ts)
  /\ (forall (manifest : pystr) (v : vrt),
         gdalbuildvrt manifest = Some v ->
         relabel to_datetime read_band grid_y grid_x v = None).
Proof.
  split; [exact datetimes_fails|]. split.
  - intros fs ts H. apply datetimes_parsed in H.
    split; [symmetry; exact (Forall2_length H) | exact H].
  - intros manifest v. unfold gdalbuildvrt.
    destruct (lines manifest) as [|l ls]; [discriminate|].
    intros [= <-]. reflexivity.
Qed.

Lemma time_indexed_value (keys : list pystr) :
  keys <> [] -> Forall no_newline keys ->
  (forall key, In key keys -> to_datetime (date_of (file_of key)) <> None) ->
  exists ts : list Stamp,
    time_indexed to_datetime read_band grid_y grid_x keys
    = Some (DataArray ts grid_y grid_x
                      (map read_band (map (fun key => vsis3 ++ key) keys)))
    /\ map Some ts = map (fun f => to_datetime (date_of f)) (files keys).
Proof.
  intros Hne H Hparse.
  destruct (MosaicFacts.datetimes_labelled to_datetime (files keys))
    as (ts & Hts & Hmap).
  { intros f Hf. unfold files in Hf.
    apply in_map_iff in Hf as (key & <- & Hk). exact (Hparse key Hk). }
  exists ts. split; [|exact Hmap]. unfold time_indexed.
  rewrite MosaicFacts.build_mosaic_bands by assumption.
  unfold relabel. cbn [descriptions]. rewrite Hts.
  unfold assign_time, open_rasterio. cbn [da_coord da_y da_x da_values sources].
  assert (List.length ts = List.length keys) as Hlen.
  { rewrite <- (length_map Some ts), Hmap. unfold files.
    now rewrite !length_map. }
  now rewrite !length_map, length_seq, ?length_map, Hlen, Nat.eqb_refl.
Qed.

Section Order.
Variable stamp_leb : Stamp -> Stamp -> bool.
Variable month_of : Stamp -> Z.

Lemma sorted_dates_monotonic (ds : list pystr) (ts : list Stamp) :
  (forall (s t : pystr) (a b : Stamp),
      Digits.is_date8 s -> Digits.is_date8 t -> str_le s t ->
      to_datetime s = Some a -> to_datetime t = Some b ->
      stamp_leb a b = true) ->
  Forall Digits.is_date8 ds -> Sorted str_le ds ->
  map Some ts = map to_datetime ds ->
  Aggregation.monotonic stamp_leb ts = true.
Proof.
  intros Hmono Hd Hs. revert ts.
  induction Hs as [|s ds Hs IH Hh]; intros ts E.
  - destruct ts; [reflexivity | discriminate E].
  - destruct ts as [|a ts]; [discriminate E|].
    cbn [map] in E. injection E as Ea E.
    inversion Hd as [|? ? Hs8 Hd']; subst.
    cbn [Aggregation.monotonic]. destruct ts as [|b ts]; [reflexivity|].
    destruct ds as [|t ds]; [discriminate E|].
    rewrite (IH Hd' (b :: ts) E), andb_true_r.
    cbn [map] in E. injection E as Eb _.
    inversion Hh; subst. inversion Hd'; subst.
    now apply (Hmono s t a b).
Qed.

(** X9. For keys, at least one, of at least 36 characters and without a
    newline, whose sort keys are 8-digit dates that the parser accepts:
    when the parser keeps the order of 8-digit dates, the raster built from
    the sorted keys has the parsed sort keys as its time axis, in order, so
    the monthly mean of that raster does not raise. *)
Theorem time_axis_sorted (keys : list pystr) :
  keys <> [] ->
  Forall no_newline keys ->
  Forall (fun key => (36 <= List.length key)%nat) keys ->
  Forall dated keys ->
  (forall key, In key keys -> to_datetime (sort_key key) <> None) ->
  (forall (s t : pystr) (a b : Stamp),
      Digits.is_date8 s -> Digits.is_date8 t -> str_le s t ->
      to_datetime s = Some a -> to_datetime t = Some b ->
      stamp_leb a b = true) ->
  exists da : data_array Stamp,
    time_indexed to_datetime read_band grid_y grid_x (sort_keys keys) = Some da
    /\ map Some (da_coord da)
       = map to_datetime (map sort_key (sort_keys keys))
    /\ Sorted str_le (map sort_key (sort_keys keys))
    /\ Aggregation.monotonic stamp_leb (da_coord da) = true
    /\ exists out : data_array Z,
        Aggregation.mosaic_mean stamp_leb month_of da = Some out.
Proof.
  intros Hne Hn Hl Hd Hparse Hmono.
  pose proof (SortFacts.sort_by_perm sort_key keys) as Hp.
  fold (sort_keys keys) in Hp.
  assert (forall k, In k (sort_keys keys) -> In k keys) as Hin
      by (intros k Hk; apply (Permutation_in k (Permutation_sym Hp) Hk)).
  assert (Forall no_newline (sort_keys keys)) as Hn'
      by (rewrite Forall_forall in *; intros k Hk; apply Hn; now apply Hin).
  assert (Forall Digits.is_date8 (map sort_key (sort_keys keys))) as Hd'.
  { rewrite Forall_forall in *. intros d Hdk.
    apply in_map_iff in Hdk as (k & <- & Hk). apply Hd. now apply Hin. }
  assert (sort_keys keys <> []) as Hne'.
  { intros E. rewrite E in Hp. apply Permutation_sym, Permutation_nil in Hp.
    contradiction. }
  assert (Sorted str_le (map sort_key (sort_keys keys))) as Hs
      by apply SortedKeysFacts.sorted_map_key, SortFacts.sort_by_sorted.
  destruct (time_indexed_value (sort_keys keys) Hne' Hn') as (ts & Ht & Hmap).
  { intros k Hk. rewrite FieldFacts.date_of_file.
    - apply Hparse. now apply Hin.
    - rewrite Forall_forall in Hl. apply Hl. now apply Hin. }
  assert (map Some ts = map to_datetime (map sort_key (sort_keys keys))) as E.
  { rewrite Hmap. unfold files. rewrite !map_map. apply map_ext_in.
    intros k Hk. f_equal. apply FieldFacts.date_of_file.
    rewrite Forall_forall in Hl. apply Hl. now apply Hin. }
  assert (Aggregation.monotonic stamp_leb ts = true) as Hm
      by exact (sorted_dates_monotonic _ ts Hmono Hd' Hs E).
  eexists. split; [exact Ht|]. cbn [da_coord].
  split; [exact E|]. split; [exact Hs|]. split; [exact Hm|].
  eexists. unfold Aggregation.mosaic_mean.
  apply AggregationFacts.resample_mean_some.
  cbn [Aggregation.where_nonzero da_coord]. exact Hm.
Qed.
End Order.
End Axis.

Lemma datetimes_need_descriptions_witness :
  exists v : vrt,
    gdalbuildvrt (write_manifest listed_keys) = Some v
    /\ relabel Digits.parse_date8 band_of_date [] [] v = None.
Proof.
  eexists. split; [reflexivity|].
  apply (proj2 (proj2 (datetimes_need_descriptions
                         Digits.parse_date8 band_of_date [] []))
               (write_manifest listed_keys)).
  reflexivity.
Defined.

Lemma parse_date8_keeps_order (s t : pystr) (a b : Z) :
  Digits.is_date8 s -> Digits.is_date8 t -> str_le s t ->
  Digits.parse_date8 s = Some a -> Digits.parse_date8 t = Some b ->
  Z.leb a b = true.
Proof.
  intros Hs Ht Hle Ha Hb. unfold Digits.parse_date8 in Ha, Hb.
  destruct (_ && _) in Ha; [|discriminate Ha].
  destruct (_ && _) in Hb; [|discriminate Hb].
  injection Ha as <-. injection Hb as <-.
  apply Z.leb_le. now apply DigitFacts.str_leb_number.
Qed.

Lemma time_axis_sorted_witness :
  exists da : data_array Z,
    time_indexed Digits.parse_date8 band_of_date [] [] (sort_keys listed_keys)
    = Some da
    /\ map Some (da_coord da)
       = map Digits.parse_date8 (map sort_key (sort_keys listed_keys))
    /\ Sorted str_le (map sort_key (sort_keys listed_keys))
    /\ Aggregation.monotonic Z.leb (da_coord da) = true
    /\ exists out : data_array Z,
        Aggregation.mosaic_mean Z.leb Aggregation.month_of_number da = Some out.
Proof.
  apply (time_axis_sorted Digits.parse_date8 band_of_date [] [] Z.leb
                          Aggregation.month_of_number listed_keys).
  - discriminate.
  - repeat constructor.
  - exact SortedKeysFacts.listed_keys_long.
  - exact CatalogFacts.listed_keys_dated.
  - intros key [<-|[<-|[<-|[]]]]; discriminate.
  - exact parse_date8_keeps_order.
Defined.

(** The three keys, from the listing to the monthly mean: one month, the
    mean of the three bands. *)
Example listed_keys_monthly_mean :
  match time_indexed Digits.parse_date8 band_of_date [0%Q] [0%Q]
                     (sort_keys listed_keys) with
  | Some da =>
      option_map da_coord
                 (Aggregation.mosaic_mean Z.leb Aggregation.month_of_number da)
  | None => None
  end
  = Some [24241%Z].
Proof. reflexivity. Qed.

End ManifestFacts.

(** ** The table of metadata *)

Module FrameFacts.

Import Catalog Frame OrderFacts.

Lemma wrap64_small (z : Z) : - 2 ^ 63 <= z < 2 ^ 63 -> wrap64 z = z.
Proof. intros H. unfold wrap64. rewrite Z.mod_small; lia. Qed.

Lemma diff_from_sorted (x : Z) (l : list Z) :
  in_range x -> Forall in_range l -> Sorted Z.le (x :: l) ->
  Forall not_negative (diff_from x l).
Proof.
  revert x. induction l as [|y l IH]; intros x Hx Hl H; cbn [diff_from].
  - constructor.
  - inversion H as [|? ? Hs Hh]; subst. inversion Hh; subst.
    inversion Hl as [|? ? Hy Hl']; subst.
    constructor; [|now apply IH].
    unfold in_range in *. cbn [not_negative]. rewrite wrap64_small; lia.
Qed.

Lemma diff_sorted (l : list Z) :
  Forall in_range l -> Sorted Z.le l -> Forall not_negative (diff l).
Proof.
  destruct l as [|x l]; intros Hr H; cbn [diff]; constructor;
    [exact I|].
  inversion Hr; subst. now apply diff_from_sorted.
Qed.

Lemma diff_length (l : list Z) : List.length (diff l) = List.length l.
Proof.
  destruct l as [|x l]; [reflexivity|]. cbn [diff List.length]. f_equal.
  revert x. induction l as [|y l IH]; intros x; [reflexivity|].
  cbn [diff_from List.length]. now rewrite IH.
Qed.

Lemma diff_first_only (x : Z) (l : list Z) : ~ In None (diff_from x l).
Proof.
  revert x. induction l as [|y l IH]; intros x; cbn [diff_from];
    [now intros []|].
  intros [H|H]; [discriminate H | exact (IH y H)].
Qed.

Section Frame.
Variable to_ns : pystr -> option Z.

Lemma to_datetime_all_fails (ds : list pystr) :
  to_datetime_all to_ns ds = None <-> exists d, In d ds /\ to_ns d = None.
Proof.
  induction ds as [|d ds IH]; cbn [to_datetime_all].
  - split; [discriminate | now intros (d & [] & _)].
  - destruct (to_ns d) as [t|] eqn:E.
    + destruct (to_datetime_all to_ns ds) as [ts|].
      * split; [discriminate|]. intros (e & [<-|He] & Hn); [congruence|].
        assert (Some ts = None) as Hc; [|discriminate Hc].
        apply IH. now exists e.
      * split; [|reflexivity]. intros _.
        destruct (proj1 IH eq_refl) as (e & He & Hn).
        exists e. split; [now right | exact Hn].
    + split; [|reflexivity]. intros _. exists d. split; [now left | exact E].
Qed.

Lemma to_datetime_all_parsed (ds : list pystr) (ts : list Z) :
  to_datetime_all to_ns ds = Some ts -> map Some ts = map to_ns ds.
Proof.
  revert ts. induction ds as [|d ds IH]; intros ts; cbn [to_datetime_all].
  - now intros [= <-].
  - destruct (to_ns d) as [t|] eqn:E; [|discriminate].
    destruct (to_datetime_all to_ns ds) as [ts'|]; [|discriminate].
    intros [= <-]. cbn [map]. now rewrite E, (IH ts' eq_refl).
Qed.

Lemma metadata_value (keys : list pystr) (ts : list Z) :
  to_datetime_all to_ns (dates (files keys)) = Some ts ->
  metadata to_ns keys
  = Some (DataFrame (satellites (files keys)) (dates (files keys)) ts
                    (direction (files keys)) (files keys) (diff ts)).
Proof.
  intros H. unfold metadata, tidy. rewrite H.
  unfold satellites, dates, direction, files.
  now rewrite !length_map, Nat.eqb_refl.
Qed.

Lemma metadata_fails (keys : list pystr) :
  metadata to_ns keys = None
  <-> exists key, In key keys /\ to_ns (date_of (file_of key)) = None.
Proof.
  destruct (to_datetime_all to_ns (dates (files keys))) as [ts|] eqn:E.
  - rewrite (metadata_value keys ts E). split; [discriminate|].
    intros (key & Hk & Hn).
    assert (to_datetime_all to_ns (dates (files keys)) = None) as Hc.
    { apply to_datetime_all_fails. exists (date_of (file_of key)).
      split; [|exact Hn]. unfold dates, files. rewrite map_map.
      apply in_map_iff. now exists key. }
    congruence.
  - assert (metadata to_ns keys = None) as Hm
        by (unfold metadata, tidy; now rewrite E).
    split; [|intros _; exact Hm]. intros _.
    apply to_datetime_all_fails in E as (d & Hd & Hn).
    unfold dates, files in Hd. rewrite map_map in Hd.
    apply in_map_iff in Hd as (key & <- & Hk). now exists key.
Qed.

Lemma sorted_timestamps (ds : list pystr) (ts : list Z) :
  (forall (s t : pystr) (a b : Z),
      Digits.is_date8 s -> Digits.is_date8 t -> str_le s t ->
      to_ns s = Some a -> to_ns t = Some b -> a <= b) ->
  Forall Digits.is_date8 ds -> Sorted str_le ds ->
  map Some ts = map to_ns ds ->
  Sorted Z.le ts.
Proof.
  intros Hmono Hd Hs. revert ts.
  induction Hs as [|s ds Hs IH Hh]; intros ts E.
  - destruct ts; [constructor | discriminate E].
  - destruct ts as [|a ts]; [discriminate E|].
    cbn [map] in E. injection E as Ea E.
    inversion Hd as [|? ? Hs8 Hd']; subst.
    constructor; [now apply IH|].
    destruct ts as [|b ts]; [constructor|].
    destruct ds as [|t ds]; [discriminate E|].
    cbn [map] in E. injection E as Eb _.
    inversion Hh; subst. inversion Hd'; subst.
    constructor. now apply (Hmono s t a b).
Qed.

(** X17. The table is built exactly when the parser accepts the date of
    every key. For keys of at least 36 characters whose sort keys are
    8-digit dates that parse to timestamps from the epoch on, and a parser
    that keeps the order of 8-digit dates, the table of the sorted keys has
    a row per key, timestamps in order, and a column [dt] without a
    negative difference: only its first entry is missing. *)
Theorem metadata_dt_not_negative (keys : list pystr) :
  (metadata to_ns keys = None
   <-> exists key : pystr,
        In key keys
        /\ to_ns (py_slice (Some 4) (Some 12) (py_slice (Some (-36)) None key))
           = None)
  /\ (Forall (fun key => (36 <= List.length key)%nat) keys ->
      Forall dated keys ->
      (forall key : pystr,
          In key keys ->
          exists a : Z, to_ns (sort_key key) = Some a /\ 0 <= a < 2 ^ 63) ->
      (forall (s t : pystr) (a b : Z),
          Digits.is_date8 s -> Digits.is_date8 t -> str_le s t ->
          to_ns s = Some a -> to_ns t = Some b -> a <= b) ->
      exists df : data_frame,
        metadata to_ns (sort_keys keys) = Some df
        /\ List.length (f_file df) = List.length keys
        /\ f_date df = map sort_key (sort_keys keys)
        /\ map Some (f_datetime df) = map to_ns (f_date df)
        /\ Sorted Z.le (f_datetime df)
        /\ f_dt df = diff (f_datetime df)
        /\ Forall not_negative (f_dt df)
        /\ (keys <> [] -> exists rest, f_dt df = None :: rest
                                       /\ ~ In None rest)).
Proof.
  split; [exact (metadata_fails keys)|].
  intros Hlen Hdated Hparse Hmono.
  pose proof (SortFacts.sort_by_perm sort_key keys) as Hp.
  fold (sort_keys keys) in Hp.
  assert (forall k, In k (sort_keys keys) -> In k keys) as Hin
      by (intros k Hk; apply (Permutation_in k (Permutation_sym Hp) Hk)).
  assert (dates (files (sort_keys keys)) = map sort_key (sort_keys keys))
    as E.
  { unfold dates, files. rewrite map_map. apply map_ext_in.
    intros k Hk. apply FieldFacts.date_of_file.
    rewrite Forall_forall in Hlen. apply Hlen. now apply Hin. }
  destruct (to_datetime_all to_ns (dates (files (sort_keys keys))))
    as [ts|] eqn:Ets.
  2:{ exfalso. apply to_datetime_all_fails in Ets as (d & Hd & Hn).
      rewrite E in Hd. apply in_map_iff in Hd as (k & <- & Hk).
      destruct (Hparse k (Hin k Hk)) as (a & Ha & _). congruence. }
  pose proof (to_datetime_all_parsed _ _ Ets) as Hmap. rewrite E in Hmap.
  assert (Forall Digits.is_date8 (map sort_key (sort_keys keys))) as Hd'.
  { rewrite Forall_forall in *. intros d Hdk.
    apply in_map_iff in Hdk as (k & <- & Hk). apply Hdated. now apply Hin. }
  assert (Sorted Z.le ts) as Hs.
  { apply (sorted_timestamps (map sort_key (sort_keys keys)) ts Hmono Hd');
      [|exact Hmap].
    apply SortedKeysFacts.sorted_map_key, SortFacts.sort_by_sorted. }
  assert (Forall in_range ts) as Hr.
  { rewrite Forall_forall. intros a Ha.
    apply (in_map Some) in Ha. rewrite Hmap, map_map in Ha.
    apply in_map_iff in Ha as (k & Hk & Hink).
    destruct (Hparse k (Hin k Hink)) as (a' & Ha' & Hrange).
    rewrite Ha' in Hk. injection Hk as <-. exact Hrange. }
  eexists. split; [apply (metadata_value _ ts Ets)|].
  cbn [f_file f_date f_datetime f_dt]. rewrite E.
  split; [unfold files; rewrite length_map;
          symmetry; now apply Permutation_length|].
  split; [reflexivity|]. split; [exact Hmap|]. split; [exact Hs|].
  split; [reflexivity|]. split; [now apply diff_sorted|].
  intros Hne. destruct ts as [|t0 ts].
  - exfalso. destruct (sort_keys keys) as [|k0 rest] eqn:Ek.
    + apply Permutation_sym, Permutation_nil in Hp. contradiction.
    + discriminate Hmap.
  - cbn [diff]. eexists. split; [reflexivity|]. apply diff_first_only.
Qed.
End Frame.

Lemma listed_keys_in_range (key : pystr) :
  In key listed_keys ->
  exists a : Z,
    Digits.parse_date8 (sort_key key) = Some a /\ 0 <= a < 2 ^ 63.
Proof.
  intros [<-|[<-|[<-|[]]]]; eexists;
    (split; [reflexivity
            | split; [vm_compute; discriminate | vm_compute; reflexivity]]).
Qed.

Lemma parse_date8_order (s t : pystr) (a b : Z) :
  Digits.is_date8 s -> Digits.is_date8 t -> str_le s t ->
  Digits.parse_date8 s = Some a -> Digits.parse_date8 t = Some b -> a <= b.
Proof.
  intros Hs Ht Hle Ha Hb.
  apply Z.leb_le. exact (ManifestFacts.parse_date8_keeps_order s t a b
                           Hs Ht Hle Ha Hb).
Qed.

Lemma metadata_dt_not_negative_witness :
  exists df : data_frame,
    metadata Digits.parse_date8 (sort_keys listed_keys) = Some df
    /\ List.length (f_file df) = List.length listed_keys
    /\ f_date df = map sort_key (sort_keys listed_keys)
    /\ map Some (f_datetime df) = map Digits.parse_date8 (f_date df)
    /\ Sorted Z.le (f_datetime df)
    /\ f_dt df = diff (f_datetime df)
    /\ Forall not_negative (f_dt df)
    /\ (listed_keys <> [] -> exists rest, f_dt df = None :: rest
                                          /\ ~ In None rest).
Proof.
  apply (proj2 (metadata_dt_not_negative Digits.parse_date8 listed_keys)).
  - exact SortedKeysFacts.listed_keys_long.
  - exact CatalogFacts.listed_keys_dated.
  - exact listed_keys_in_range.
  - exact parse_date8_order.
Defined.

Example metadata_of_listed_keys :
  option_map f_dt (metadata Digits.parse_date8 (sort_keys listed_keys))
  = Some [None; Some 1; Some 1].
Proof. reflexivity. Qed.

(** Timestamps further apart than 64 bits hold: the nanoseconds of
    1 January 1678 and of 1 January 2261 are in order and their difference
    comes out negative. *)
Example diff_wraps :
  diff [-9214560000000000000; 9183110400000000000]
  = [None; Some (-49073673709551616)].
Proof. reflexivity. Qed.

End FrameFacts.

(** ** Monthly means: shape, range, and the two workflows *)

Module MonthlyFacts.

Import Aggregation Region.
Local Open Scope Q_scope.

Lemma length_positive {A : Type} (a : A) (l : list A) :
  0 < inject_Z (Z.of_nat (List.length (a :: l))).
Proof.
  change 0 with (inject_Z 0). rewrite <- Zlt_Qlt. cbn [List.length]. lia.
Qed.

Lemma Qsum_positive (v : Q) (vs : list Q) :
  Forall (fun v => 0 < v) (v :: vs) -> 0 < Qsum (v :: vs).
Proof.
  intros H. inversion H as [|? ? Hv Hvs]; subst. clear H.
  cbn [Qsum fold_right]. fold (Qsum vs).
  assert (0 <= Qsum vs) as Hs.
  { induction Hvs as [|w ws Hw _ IH]; cbn [Qsum fold_right];
      [lra | fold (Qsum ws); lra]. }
  lra.
Qed.

Lemma Qmean_positive (v : Q) (vs : list Q) :
  Forall (fun v => 0 < v) (v :: vs) -> 0 < Qmean (v :: vs).
Proof.
  intros H. unfold Qmean. apply Qlt_shift_div_l.
  - apply length_positive.
  - rewrite Qmult_0_l. now apply Qsum_positive.
Qed.

Lemma is_obs_not_zero (v : Q) : is_obs v = true -> ~ v == 0.
Proof.
  unfold is_obs. intros H E. apply Qeq_bool_iff in E. rewrite E in H.
  discriminate H.
Qed.

Lemma observations_in (v : Q) (l : list pixel) :
  In v (observations l) -> In (Some v) l /\ is_obs v = true.
Proof.
  unfold observations. rewrite filter_In. intros [H Ho]. split; [|exact Ho].
  induction l as [|[q|] l IH]; cbn [valid] in H; [contradiction| |].
  - destruct H as [->|H]; [now left | right; now apply IH].
  - right. now apply IH.
Qed.

Section Monthly.
Context {Stamp : Type}.
Variable stamp_leb : Stamp -> Stamp -> bool.
Variable month_of : Stamp -> Z.

Lemma group_in (da : data_array Stamp) (m : Z) (L : layer) :
  In L (group month_of da m) -> In L (da_values da).
Proof.
  unfold group. intros H. apply in_map_iff in H as ([t L'] & <- & H).
  apply filter_In in H as [H _]. now apply in_combine_r in H.
Qed.

Lemma mosaic_mean_nth (da : data_array Stamp) (k : nat) (L : layer) :
  nth_error (da_values (monthly_layers month_of (where_nonzero da))) k
  = Some L ->
  exists m : Z,
    nth_error (da_coord (monthly_layers month_of (where_nonzero da))) k
    = Some m.
Proof.
  unfold monthly_layers. cbn [da_values da_coord].
  rewrite nth_error_map.
  destruct (nth_error (bins month_of (da_coord (where_nonzero da))) k)
    as [m|]; [|discriminate].
  intros _. now exists m.
Qed.

(** X12. When no value of the raster is negative, a monthly mean is never
    the no-data value: a pixel of a monthly layer is missing or strictly
    positive. *)
Theorem monthly_mean_never_zero
        (da : data_array Stamp) (out : data_array Z)
        (k : nat) (L : layer) (j i : nat) (q : Q) :
  (forall (L' : layer) (j' i' : nat) (v : Q),
      In L' (da_values da) -> pixel_at L' j' i' = Some v -> 0 <= v) ->
  mosaic_mean stamp_leb month_of da = Some out ->
  nth_error (da_values out) k = Some L ->
  (j < List.length (da_y da))%nat -> (i < List.length (da_x da))%nat ->
  pixel_at L j i = Some q ->
  0 < q.
Proof.
  intros Hpos Hout HL Hj Hi Hq.
  apply AggregationFacts.resample_mean_inv in Hout as [_ ->].
  destruct (mosaic_mean_nth da k L HL) as (m & Hm).
  destruct (AggregationFacts.mosaic_mean_layer month_of da k m Hm)
    as (L' & HL' & Hpx).
  rewrite HL in HL'. injection HL' as <-.
  rewrite (Hpx j i Hj Hi) in Hq. unfold mean_of in Hq.
  destruct (observations (pixel_stack (group month_of da m) j i))
    as [|v vs] eqn:E; [discriminate|].
  injection Hq as <-. apply Qmean_positive.
  rewrite Forall_forall. intros w Hw. rewrite <- E in Hw.
  apply observations_in in Hw as [Hin Ho].
  unfold pixel_stack in Hin. apply in_map_iff in Hin as (L' & Hv & HL').
  apply group_in in HL'. pose proof (Hpos L' j i w HL' Hv) as H0.
  apply is_obs_not_zero in Ho.
  destruct (Qlt_le_dec 0 w) as [Hlt|Hle]; [exact Hlt|].
  exfalso. apply Ho. now apply Qle_antisym.
Qed.
End Monthly.

Lemma one_pixel_not_negative :
  forall (L' : layer) (j' i' : nat) (v : Q),
    In L' (da_values one_pixel) -> pixel_at L' j' i' = Some v -> 0 <= v.
Proof.
  intros L' j' i' v HL Hv. cbn in HL.
  assert (forall a : Q, 0 <= a -> pixel_at [[Some a]] j' i' = Some v -> 0 <= v)
    as Hone.
  { intros a Ha H. unfold pixel_at in H.
    destruct j' as [|[|j']]; cbn in H; destruct i' as [|[|i']]; cbn in H;
      try discriminate H; now injection H as <-. }
  destruct HL as [<-|[<-|[<-|[<-|[]]]]];
    (eapply Hone; [|exact Hv]); discriminate.
Qed.

Lemma monthly_mean_never_zero_witness : 0 < 6 # 2.
Proof.
  apply (monthly_mean_never_zero
           Z.leb month_of_number one_pixel
           (DataArray [24241; 24242; 24243]%Z [0] [0]
                      [[[Some (6 # 2)]]; [[None]]; [[None]]])
           0 [[Some (6 # 2)]] 0 0 (6 # 2));
    try reflexivity; try (cbn; lia).
  exact one_pixel_not_negative.
Defined.

End MonthlyFacts.

(** ** Slicing and the monthly mean *)

Module SliceMeanFacts.

Import Aggregation Region.
Local Open Scope Q_scope.

(** *** Selection by a mask, through the positions kept *)

Lemma select_seq_from (k : list bool) (s n x : nat) :
  In x (select k (seq s n)) -> (s <= x)%nat.
Proof. intros H. apply RegionFacts.select_in, in_seq in H. lia. Qed.

Lemma nth_select {A : Type} (k : list bool) (l : list A) (s j : nat) (d : A) :
  (j < List.length (select k (seq s (List.length k))))%nat ->
  nth j (select k l) d
  = nth (nth j (select k (seq s (List.length k))) 0 - s)%nat l d.
Proof.
  revert l s j. induction k as [|b k IH]; intros l s j Hj.
  - cbn in Hj. lia.
  - cbn [List.length seq select] in *. destruct l as [|a l].
    + destruct b; now rewrite !nth_overflow by (cbn; lia).
    + destruct b.
      * destruct j as [|j]; cbn [nth].
        { now rewrite Nat.sub_diag. }
        cbn [List.length] in Hj. apply PeanoNat.lt_S_n in Hj.
        rewrite (IH l (S s) j Hj).
        pose proof (select_seq_from k (S s) (List.length k) _
                                    (nth_In _ 0%nat Hj)) as Hge.
        replace (nth j (select k (seq (S s) (List.length k))) 0%nat - s)%nat
          with (S (nth j (select k (seq (S s) (List.length k))) 0%nat - S s))
          by lia.
        reflexivity.
      * rewrite (IH l (S s) j Hj).
        pose proof (select_seq_from k (S s) (List.length k) _
                                    (nth_In _ 0%nat Hj)) as Hge.
        replace (nth j (select k (seq (S s) (List.length k))) 0%nat - s)%nat
          with (S (nth j (select k (seq (S s) (List.length k))) 0%nat - S s))
          by lia.
        reflexivity.
Qed.

Lemma map_by_index {B : Type} (f : nat -> B) (J : list nat) :
  map f J = map (fun j => f (nth j J 0%nat)) (seq 0 (List.length J)).
Proof.
  induction J as [|x J IH]; [reflexivity|].
  cbn [List.length seq map nth]. f_equal.
  rewrite <- seq_shift, map_map. exact IH.
Qed.

Lemma select_nil {A : Type} (k : list bool) : select k (@nil A) = [].
Proof. now destruct k. Qed.

(** The pixel at a place of a slice is the pixel at the place it was taken
    from. *)
Lemma pixel_at_slice (kx ky : list bool) (L : layer) (j i : nat) :
  (j < List.length (select ky (seq 0 (List.length ky))))%nat ->
  (i < List.length (select kx (seq 0 (List.length kx))))%nat ->
  pixel_at (map (select kx) (select ky L)) j i
  = pixel_at L (nth j (select ky (seq 0 (List.length ky))) 0%nat)
             (nth i (select kx (seq 0 (List.length kx))) 0%nat).
Proof.
  intros Hj Hi. unfold pixel_at.
  rewrite <- (select_nil kx) at 1. rewrite map_nth.
  rewrite (nth_select ky L 0 j [] Hj), Nat.sub_0_r.
  now rewrite (nth_select kx _ 0 i None Hi), Nat.sub_0_r.
Qed.

Lemma slice_mean_layers (kx ky : list bool) (g : list layer) :
  map (select kx)
      (select ky (mean_layers (List.length ky) (List.length kx) g))
  = mean_layers (List.length (select ky (seq 0 (List.length ky))))
                (List.length (select kx (seq 0 (List.length kx))))
                (map (fun L => map (select kx) (select ky L)) g).
Proof.
  unfold mean_layers.
  rewrite AggregationFacts.select_map, map_map.
  rewrite (map_by_index _ (select ky (seq 0 (List.length ky)))).
  apply map_ext_in. intros j Hj. apply in_seq in Hj.
  rewrite AggregationFacts.select_map.
  rewrite (map_by_index _ (select kx (seq 0 (List.length kx)))).
  apply map_ext_in. intros i Hi. apply in_seq in Hi.
  f_equal. unfold pixel_stack. rewrite map_map.
  apply map_ext. intros L. symmetry. apply pixel_at_slice; lia.
Qed.

Lemma sel_xy_where_nonzero {T : Type} (da : data_array T) (x0 x1 y0 y1 : Q) :
  sel_xy (where_nonzero da) x0 x1 y0 y1
  = option_map where_nonzero (sel_xy da x0 x1 y0 y1).
Proof.
  unfold sel_xy, where_nonzero. cbn [da_coord da_y da_x da_values].
  destruct (slice_mask (da_x da) x0 x1) as [kx|]; [|reflexivity].
  destruct (slice_mask (da_y da) y0 y1) as [ky|]; [|reflexivity].
  cbn [option_map da_coord da_y da_x da_values]. do 2 f_equal.
  rewrite !map_map. apply map_ext. intros L.
  rewrite AggregationFacts.select_map, !map_map. apply map_ext. intros row.
  now rewrite AggregationFacts.select_map.
Qed.

Lemma slice_mask_length (c : list Q) (a b : Q) (k : list bool) :
  slice_mask c a b = Some k -> List.length k = List.length c.
Proof.
  unfold slice_mask. destruct (increasing c).
  - intros [= <-]. apply length_map.
  - destruct (decreasing c).
    + intros [= <-]. apply length_map.
    + destruct (positions_from 0 c a) as [|i [|? ?]]; try discriminate.
      destruct (positions_from 0 c b) as [|j [|? ?]]; try discriminate.
      intros [= <-]. now rewrite length_map, length_seq.
Qed.

Lemma open_masked_zero {T : Type} (da : data_array T) :
  open_masked (Some 0) da = where_nonzero da.
Proof.
  unfold open_masked, where_nonzero. f_equal.
  apply map_ext. intros L. apply map_ext. intros row. apply map_ext.
  intros [q|]; [|reflexivity].
  unfold mask_nodata, mask_zero, where_px, nonzero.
  now destruct (Qeq_bool q 0).
Qed.

(** On a coordinate in no order the slice runs between the places of the
    two labels; a bound that is no label raises. *)
Example slice_on_unordered_coordinate :
  slice_mask [0; 2; 1; 3] 2 1 = Some [false; true; true; false]
  /\ slice_mask [0; 2; 1; 3] (1 # 2) 1 = None.
Proof. split; reflexivity. Qed.

Section Commute.
Context {Stamp : Type}.
Variable stamp_leb : Stamp -> Stamp -> bool.
Variable month_of : Stamp -> Z.

Lemma sel_xy_monthly_layers (da : data_array Stamp) (x0 x1 y0 y1 : Q) :
  sel_xy (monthly_layers month_of da) x0 x1 y0 y1
  = option_map (monthly_layers month_of) (sel_xy da x0 x1 y0 y1).
Proof.
  unfold sel_xy, monthly_layers. cbn [da_coord da_y da_x da_values].
  destruct (slice_mask (da_x da) x0 x1) as [kx|] eqn:Ex; [|reflexivity].
  destruct (slice_mask (da_y da) y0 y1) as [ky|] eqn:Ey; [|reflexivity].
  apply slice_mask_length in Ex, Ey.
  cbn [option_map da_coord da_y da_x da_values]. do 2 f_equal.
  rewrite map_map. apply map_ext. intros m.
  rewrite <- Ex, <- Ey, slice_mean_layers.
  rewrite (RegionFacts.select_length ky (da_y da) (seq 0 (List.length ky)))
    by now rewrite length_seq.
  rewrite (RegionFacts.select_length kx (da_x da) (seq 0 (List.length kx)))
    by now rewrite length_seq.
  f_equal. destruct da as [c y x vals]. cbn [da_coord da_y da_x da_values].
  symmetry.
  exact (AggregationFacts.group_map
           month_of (fun L => map (select kx) (select ky L)) c y x vals m).
Qed.

Lemma sel_xy_resample_mean (da : data_array Stamp) (x0 x1 y0 y1 : Q) :
  match resample_mean stamp_leb month_of da with
  | Some r => sel_xy r x0 x1 y0 y1
  | None => None
  end
  = match sel_xy da x0 x1 y0 y1 with
    | Some s => resample_mean stamp_leb month_of s
    | None => None
    end.
Proof.
  destruct (sel_xy da x0 x1 y0 y1) as [s|] eqn:Es.
  - pose proof (AggregationFacts.sel_xy_coord da s x0 x1 y0 y1 Es) as Ec.
    unfold resample_mean. rewrite Ec.
    destruct (monotonic stamp_leb (da_coord da)); [|reflexivity].
    now rewrite sel_xy_monthly_layers, Es.
  - unfold resample_mean.
    destruct (monotonic stamp_leb (da_coord da)); [|reflexivity].
    now rewrite sel_xy_monthly_layers, Es.
Qed.

(** X13. Slicing and the monthly mean commute: the monthly mean of a slice
    is the slice of the monthly mean, with or without the mask of zeros,
    and the one raises when the other does; so the full-resolution
    [subset], computed on the slice alone, is the slice of the monthly mean
    of the whole raster. *)
Theorem slice_commutes_with_monthly_mean
        (da : data_array Stamp) (x0 x1 y0 y1 : Q) :
  match resample_mean stamp_leb month_of da with
  | Some r => sel_xy r x0 x1 y0 y1
  | None => None
  end
  = match sel_xy da x0 x1 y0 y1 with
    | Some s => resample_mean stamp_leb month_of s
    | None => None
    end
  /\ match mosaic_mean stamp_leb month_of da with
     | Some r => sel_xy r x0 x1 y0 y1
     | None => None
     end
     = match sel_xy da x0 x1 y0 y1 with
       | Some s => mosaic_mean stamp_leb month_of s
       | None => None
       end
  /\ forall nodata : option Q,
      subset stamp_leb month_of nodata da x0 x1 y0 y1
      = match resample_mean stamp_leb month_of (open_masked nodata da) with
        | Some r => sel_xy r x0 x1 y0 y1
        | None => None
        end.
Proof.
  split; [apply sel_xy_resample_mean|]. split.
  - unfold mosaic_mean. rewrite sel_xy_resample_mean, sel_xy_where_nonzero.
    now destruct (sel_xy da x0 x1 y0 y1).
  - intros nodata. rewrite sel_xy_resample_mean. reflexivity.
Qed.

(** X14. On a raster that declares zero as its no-data value, the
    full-resolution [subset] is the low-resolution computation
    [mosaic_mean] applied to the slice. *)
Theorem full_resolution_with_zero_no_data
        (da : data_array Stamp) (x0 x1 y0 y1 : Q) :
  subset stamp_leb month_of (Some 0) da x0 x1 y0 y1
  = match sel_xy da x0 x1 y0 y1 with
    | Some s => mosaic_mean stamp_leb month_of s
    | None => None
    end.
Proof.
  unfold subset. rewrite open_masked_zero, sel_xy_where_nonzero.
  now destruct (sel_xy da x0 x1 y0 y1).
Qed.

(** *** Every layer goes to one month *)

Lemma month_filters (l : list (Stamp * layer)) (ms : list Z) :
  NoDup ms ->
  (forall p, In p l -> In (month_of (fst p)) ms) ->
  Permutation
    (concat (map (fun m => filter (fun p => Z.eqb (month_of (fst p)) m) l) ms))
    l.
Proof.
  intros Hnd. induction l as [|p l IH]; intros Hin.
  - clear. induction ms as [|m ms IH]; [constructor | exact IH].
  - assert (Permutation
              (concat (map (fun m => filter (fun p => Z.eqb (month_of (fst p)) m)
                                            (p :: l)) ms))
              (p :: concat (map (fun m => filter
                                            (fun p => Z.eqb (month_of (fst p)) m)
                                            l) ms))) as Hstep.
    { specialize (Hin p (or_introl eq_refl)). clear IH.
      induction Hnd as [|m ms Hm Hnd IHms]; [contradiction|].
      cbn [map concat filter].
      destruct (Z.eqb_spec (month_of (fst p)) m) as [E|E].
      - cbn [app]. constructor. apply Permutation_app_head.
        clear IHms Hnd Hin. induction ms as [|m' ms IH']; [constructor|].
        cbn [map concat filter].
        destruct (Z.eqb_spec (month_of (fst p)) m') as [E'|E'].
        + exfalso. apply Hm. left. congruence.
        + apply Permutation_app_head. apply IH'.
          intros H. apply Hm. now right.
      - destruct Hin as [Hin|Hin]; [congruence|].
        rewrite (IHms Hin). apply Permutation_sym, Permutation_middle. }
    rewrite Hstep. constructor. apply IH.
    intros q Hq. apply Hin. now right.
Qed.

Lemma bins_no_dup (ts : list Stamp) : NoDup (bins month_of ts).
Proof.
  unfold bins. destruct (map month_of ts) as [|d l]; [constructor|].
  apply Injective_map_NoDup; [|apply seq_NoDup].
  intros a b H. lia.
Qed.

Lemma groups_partition (da : data_array Stamp) :
  Permutation
    (concat (map (group month_of da) (bins month_of (da_coord da))))
    (map snd (combine (da_coord da) (da_values da))).
Proof.
  unfold group.
  assert (concat (map (fun m =>
                         map snd (filter (fun p => Z.eqb (month_of (fst p)) m)
                                         (combine (da_coord da) (da_values da))))
                      (bins month_of (da_coord da)))
          = map snd
                (concat (map (fun m =>
                                filter (fun p => Z.eqb (month_of (fst p)) m)
                                       (combine (da_coord da) (da_values da)))
                             (bins month_of (da_coord da))))) as E
      by now rewrite concat_map, map_map.
  rewrite E. apply Permutation_map, month_filters.
  - apply bins_no_dup.
  - intros [t L] H. cbn [fst]. apply in_combine_l in H.
    apply (AggregationFacts.bins_between month_of (da_coord da) t t);
      [exact H | exact H | lia].
Qed.

(** X15. On a raster whose time axis is in order the resampling gives a
    layer per month of its output, no month twice, each the mean of the
    layers of that month, and the months share out the layers: the layers
    of all the monthly groups together are the layers of the raster, each
    one once; no acquisition is left out of the monthly means and none is
    counted in two months. *)
Theorem months_partition_layers (da : data_array Stamp) :
  monotonic stamp_leb (da_coord da) = true ->
  exists out : data_array Z,
    resample_mean stamp_leb month_of da = Some out
    /\ NoDup (da_coord out)
    /\ da_values out
       = map (fun m => mean_layers (List.length (da_y da))
                                   (List.length (da_x da))
                                   (group month_of da m))
             (da_coord out)
    /\ Permutation
         (concat (map (group month_of da) (da_coord out)))
         (map snd (combine (da_coord da) (da_values da))).
Proof.
  intros Hmono. exists (monthly_layers month_of da).
  split; [now apply AggregationFacts.resample_mean_some|].
  unfold monthly_layers. cbn [da_coord da_values].
  split; [apply bins_no_dup|]. split; [reflexivity|].
  apply groups_partition.
Qed.
End Commute.

Lemma months_partition_layers_witness :
  exists out : data_array Z,
    resample_mean Z.leb month_of_number one_pixel = Some out
    /\ NoDup (da_coord out)
    /\ da_values out
       = map (fun m => mean_layers (List.length (da_y one_pixel))
                                   (List.length (da_x one_pixel))
                                   (group month_of_number one_pixel m))
             (da_coord out)
    /\ Permutation
         (concat (map (group month_of_number one_pixel) (da_coord out)))
         (map snd (combine (da_coord one_pixel) (da_values one_pixel))).
Proof.
  apply (months_partition_layers Z.leb month_of_number one_pixel).
  reflexivity.
Defined.

Example one_pixel_months :
  map (group month_of_number one_pixel)
      (bins month_of_number (da_coord one_pixel))
  = [[[[Some 0]]; [[Some 2]]; [[Some 4]]]; []; [[[Some 0]]]].
Proof. reflexivity. Qed.

End SliceMeanFacts.

(** ** The series with and without [drop] *)

Module TrendFacts.

Import Aggregation Region.
Local Open Scope Q_scope.

Lemma mean_xy_where_nonzero {T : Type} (sub : data_array T) :
  mean_xy (where_nonzero sub)
  = map (fun p => (fst p, mean_of (observations (concat (snd p)))))
        (combine (da_coord sub) (da_values sub)).
Proof.
  unfold mean_xy, where_nonzero. cbn [da_coord da_values].
  rewrite map_map, RegionFacts.combine_map_snd.
  apply map_ext. intros [t L]. cbn [fst snd]. f_equal.
  rewrite AggregationFacts.mean_skipna_valid. f_equal.
  rewrite (RegionFacts.valid_concat_masked (fun row => row)).
  symmetry. apply RegionFacts.observations_concat.
Qed.

Lemma no_nonzero_no_observation (l : list pixel) :
  existsb nonzero l = false -> observations l = [].
Proof.
  intros H. rewrite RegionFacts.observations_flat.
  induction l as [|px l IH]; [reflexivity|].
  cbn [existsb] in H. apply orb_false_iff in H as [Hpx Hl].
  cbn [flat_map]. rewrite (RegionFacts.zero_no_observation px Hpx).
  now apply IH.
Qed.

Lemma combine_with_image {A B C : Type} (F : A * B -> C)
      (a : list A) (b : list B) :
  combine b (map F (combine a b)) = map (fun p => (snd p, F p)) (combine a b).
Proof.
  revert b. induction a as [|a0 a IH]; intros [|b0 b]; try reflexivity.
  cbn [combine map snd]. now rewrite IH.
Qed.

Lemma filter_image {A B : Type} (F : A -> B) (P : A -> bool)
      (Q' : B -> bool) (l : list A) :
  (forall a, Q' (F a) = P a) ->
  filter Q' (map F l) = map F (filter P l).
Proof.
  intros H. induction l as [|a l IH]; [reflexivity|].
  cbn [map filter]. rewrite H. destruct (P a); cbn [map]; now rewrite IH.
Qed.

(** X16. With [drop=True] the series loses only entries that hold no
    value: it is the series computed without the drop, the mean over [x]
    and [y] of [where(daT != 0)], kept at the timestamps whose layer has a
    pixel that differs from zero, in their order; at every other timestamp
    the mean without the drop is missing. *)
Theorem drop_removes_missing_only {T : Type} (sub : data_array T) :
  well_shaped sub ->
  mean_trend sub
  = map snd
        (filter (fun le => existsb nonzero (concat (fst le)))
                (combine (da_values sub) (mean_xy (where_nonzero sub))))
  /\ forall (L : layer) (e : T * pixel),
      In (L, e) (combine (da_values sub) (mean_xy (where_nonzero sub))) ->
      existsb nonzero (concat L) = false ->
      snd e = None.
Proof.
  intros Hw. rewrite mean_xy_where_nonzero, combine_with_image. split.
  - rewrite (RegionFacts.mean_trend_kept sub Hw).
    rewrite (filter_image _ (fun p => existsb nonzero (concat (snd p))))
      by reflexivity.
    now rewrite map_map.
  - intros L e H Hz. apply in_map_iff in H as ([t L'] & [= <- <-] & _).
    cbn [fst snd]. now rewrite no_nonzero_no_observation.
Qed.

Lemma drop_removes_missing_only_witness :
  mean_trend two_by_two
  = map snd
        (filter (fun le => existsb nonzero (concat (fst le)))
                (combine (da_values two_by_two)
                         (mean_xy (where_nonzero two_by_two))))
  /\ forall (L : layer) (e : Z * pixel),
      In (L, e) (combine (da_values two_by_two)
                         (mean_xy (where_nonzero two_by_two))) ->
      existsb nonzero (concat L) = false ->
      snd e = None.
Proof.
  apply (drop_removes_missing_only two_by_two).
  exact RegionFacts.two_by_two_well_shaped.
Defined.

Example series_without_drop :
  mean_xy (where_nonzero two_by_two)
  = [(20200101%Z, Some (6 # 3)); (20200113%Z, None); (20200125%Z, Some 5)].
Proof. reflexivity. Qed.

End TrendFacts.
